(** * rxobs: a simple Observable implementation (src/main.cpp)

    A shallow embedding of the classes [Observer], [MappingObserver],
    [Subscription] and [Observable] of src/main.cpp, and of the demo classes
    [IntObserver] and [IntMapObserver].

    The C++ objects live on a heap and are passed around by pointer: a mapped
    Observable keeps a pointer to its upstream Observable and to its mapping
    observer, and the mapping observer keeps a pointer to the observer that
    subscribed.  The embedding therefore keeps an explicit store with the
    Observable objects, the observer objects, and the trace of the virtual
    calls [next] / [error] / [complete] made on observers.  Member functions
    are store transformers in an error monad whose faults are the undefined
    behaviours of the C++ code (null or invalid pointer dereference, reading
    past the array handed to [from]). *)

From Stdlib Require Import ZArith Lia String.
From stdpp Require Import base option list.

Module Rx.

(** ** Faults and the error monad *)

Inductive Fault :=
| NullDeref      (* dereference of nullptr / of a pointer that was never set *)
| BadPointer     (* the pointer does not designate an object of the expected class *)
| OutOfBounds    (* values[i] read past the caller's array *)
| OutOfFuel.     (* the call depth allowed to the embedding is exhausted *)

Inductive Res (A : Type) :=
| Ok (a : A)
| Fail (f : Fault).
Arguments Ok {A} a.
Arguments Fail {A} f.

Definition bind {A B} (r : Res A) (k : A -> Res B) : Res B :=
  match r with
  | Ok a => k a
  | Fail f => Fail f
  end.

Notation "x <- r ;; k" := (bind r (fun x => k))
  (at level 100, r at next level, right associativity).

(** [deref p] : the pointee of a nullable pointer. *)
Definition deref {A} (p : option A) : Res A :=
  match p with
  | Some a => Ok a
  | None => Fail NullDeref
  end.

(** Calls [f] on each element of [l] in order, threading the store. *)
Fixpoint forM {A S} (f : A -> S -> Res S) (l : list A) (s : S) : Res S :=
  match l with
  | [] => Ok s
  | a :: l' => s' <- f a s ;; forM f l' s'
  end.

(** Addresses: an object is designated by its index in the store.
    [ObsPtr] is [Observer<V,E> *]; [ObservablePtr] is [Observable *], and also
    [Subscription *], since Observable derives from Subscription. *)
Abbreviation ObsPtr := nat (only parsing).
Abbreviation ObservablePtr := nat (only parsing).

Section Classes.

(** [V] and [E] are the template parameters of the source; [St] is the type of
    the private members of the mapping observers in use ([bool] for
    [IntMapObserver]). *)
Context {V E St : Type}.

(** The three virtual methods of [Observer<V,E>], as the notification a call
    carries. *)
Inductive Notification :=
| Next (value : V)
| Error (err : E)
| Complete.

(** The virtual methods of a class derived from [MappingObserver<V,E>].  A
    method reads the private members, performs calls on [this->observer] (the
    list, in order) and leaves new private members.  Methods that throw or do
    not return are not covered. *)
Record MappingMethods := {
  m_next : St -> V -> list Notification * St;
  m_error : St -> E -> list Notification * St;
  m_complete : St -> list Notification * St }.

(** [class MappingObserver : public Observer<V,E> { Observer<V,E> * observer; }].
    The constructor does not set [observer]: [None] until
    [subscribeHandler_map] writes it. *)
Record MappingObserver := {
  observer : option ObsPtr;
  members : St;
  methods : MappingMethods }.

(** An observer object is either a plain [Observer] (such as [IntObserver],
    which only prints what it is called with: its effect is its part of the
    trace) or a [MappingObserver]. *)
Inductive ObserverObj :=
| PlainObserver
| Mapping (m : MappingObserver).

(** [SubscribeHandler]: pointer to one of the four member functions. *)
Inductive SubscribeHandler :=
| H_of | H_from | H_throwError | H_map.

(** The data members of [Observable<V,E>].  [values] and [err] point into
    storage of the caller: the embedding keeps what they point to ([None] is
    nullptr), so it takes that storage to be alive and unchanged for as long
    as the Observable is used. *)
Record Observable := {
  subscribeHandler : option SubscribeHandler;
  mappingObserver : option ObsPtr;
  mappingObservable : option ObservablePtr;
  values : option (list V);
  valuesCount : nat;
  err : option E }.

(** The store: the Observable objects, the observer objects, and the calls
    made on observers so far (oldest first). *)
Record Store := {
  observables : list Observable;
  observers : list ObserverObj;
  trace : list (ObsPtr * Notification) }.

Definition set_observables (f : list Observable -> list Observable) (s : Store) : Store :=
  {| observables := f (observables s); observers := observers s; trace := trace s |}.

Definition set_observers (f : list ObserverObj -> list ObserverObj) (s : Store) : Store :=
  {| observables := observables s; observers := f (observers s); trace := trace s |}.

Definition record_call (p : ObsPtr) (n : Notification) (s : Store) : Store :=
  {| observables := observables s; observers := observers s;
     trace := trace s ++ [(p, n)] |}.

(** ** Calls on observers *)

(** The method of the class that a call selects, and its run on the object
    [m]. *)
Definition method (ms : MappingMethods) (st : St) (n : Notification)
  : list Notification * St :=
  match n with
  | Next v => m_next ms st v
  | Error e => m_error ms st e
  | Complete => m_complete ms st
  end.

Definition run_method (m : MappingObserver) (n : Notification)
  : list Notification * St :=
  method (methods m) (members m) n.

Definition set_members (st : St) (o : ObserverObj) : ObserverObj :=
  match o with
  | PlainObserver => PlainObserver
  | Mapping m => Mapping {| observer := observer m; members := st; methods := methods m |}
  end.

(** [notify fuel p n] is the virtual call [p->next(v)], [p->error(e)] or
    [p->complete()].  On a mapping observer the method runs: its calls go to
    [this->observer], then the private members are written. *)
Fixpoint notify (fuel : nat) (p : ObsPtr) (n : Notification) (s : Store) : Res Store :=
  match fuel with
  | 0 => Fail OutOfFuel
  | S fuel' =>
    match observers s !! p with
    | None => Fail BadPointer
    | Some PlainObserver => Ok (record_call p n s)
    | Some (Mapping m) =>
      let '(calls, st') := run_method m n in
      s' <- forM (fun c s1 => d <- deref (observer m) ;; notify fuel' d c s1)
                 calls (record_call p n s) ;;
      Ok (set_observers (alter (set_members st') p) s')
    end
  end.

(** ** Observable *)

(** [Observable()]: what [new Observable()] gives each factory below, which
    then writes the members it names. *)
Definition Observable_new : Observable :=
  {| subscribeHandler := None;
     mappingObserver := None;   (* left unset by the constructor *)
     mappingObservable := None;
     values := None;
     valuesCount := 0;
     err := None |}.

Definition set_subscribeHandler (h : option SubscribeHandler) (o : Observable) : Observable :=
  {| subscribeHandler := h;
     mappingObserver := mappingObserver o;
     mappingObservable := mappingObservable o;
     values := values o;
     valuesCount := valuesCount o;
     err := err o |}.

(** [new Observable] with the members the factory writes: the new object gets
    the next free address. *)
Definition alloc (o : Observable) (s : Store) : ObservablePtr * Store :=
  (length (observables s), set_observables (fun l => l ++ [o]) s).

(** [static Observable * of(V const & value)]  ([of] is a keyword here).
    [values] is the address of [value]; [valuesCount] is left at 0. *)
Definition Observable_of (value : V) : Observable :=
  {| subscribeHandler := Some H_of;
     mappingObserver := None;
     mappingObservable := None;
     values := Some [value];
     valuesCount := 0;
     err := None |}.

Definition of_ (value : V) (s : Store) : ObservablePtr * Store :=
  alloc (Observable_of value) s.

(** [static Observable * from(V const * values, size_t count)] *)
Definition Observable_from (vals : option (list V)) (count : nat) : Observable :=
  {| subscribeHandler := Some H_from;
     mappingObserver := None;
     mappingObservable := None;
     values := vals;
     valuesCount := count;
     err := None |}.

Definition from (vals : option (list V)) (count : nat) (s : Store) : ObservablePtr * Store :=
  alloc (Observable_from vals count) s.

(** [static Observable * throwError(E const & err)] *)
Definition Observable_throwError (e : E) : Observable :=
  {| subscribeHandler := Some H_throwError;
     mappingObserver := None;
     mappingObservable := None;
     values := None;
     valuesCount := 0;
     err := Some e |}.

Definition throwError (e : E) (s : Store) : ObservablePtr * Store :=
  alloc (Observable_throwError e) s.

(** [Observable * map(MappingObserver<V,E> & mappingObserver)] *)
Definition Observable_map (this : ObservablePtr) (mo : ObsPtr) : Observable :=
  {| subscribeHandler := Some H_map;
     mappingObserver := Some mo;
     mappingObservable := Some this;
     values := None;
     valuesCount := 0;
     err := None |}.

Definition map (this : ObservablePtr) (mo : ObsPtr) (s : Store) : ObservablePtr * Store :=
  alloc (Observable_map this mo) s.

(** [this->...]: the object at address [this]. *)
Definition load (this : ObservablePtr) (s : Store) : Res Observable :=
  match observables s !! this with
  | Some o => Ok o
  | None => Fail BadPointer
  end.

(** [values[i]] *)
Definition index (vals : option (list V)) (i : nat) : Res V :=
  a <- deref vals ;;
  match a !! i with
  | Some v => Ok v
  | None => Fail OutOfBounds
  end.

(** [subscribeHandler = nullptr; return this;] *)
Definition completed (this : ObservablePtr) (s : Store) : Res (ObservablePtr * Store) :=
  Ok (this, set_observables (alter (set_subscribeHandler None) this) s).

(** [Subscription * subscribeHandler_of(Observer<V,E> * observer)] *)
Definition subscribeHandler_of (fuel : nat) (this : ObservablePtr) (obs : ObsPtr) (s : Store)
  : Res (ObservablePtr * Store) :=
  o <- load this s ;;
  v <- index (values o) 0 ;;
  s1 <- notify fuel obs (Next v) s ;;
  s2 <- notify fuel obs Complete s1 ;;
  completed this s2.

(** [for (size_t i = 0; i < valuesCount; i++) observer->next(values[i]);]
    with [n] iterations left. *)
Fixpoint from_loop (fuel : nat) (vals : option (list V)) (obs : ObsPtr)
    (i n : nat) (s : Store) : Res Store :=
  match n with
  | 0 => Ok s
  | S n' =>
    v <- index vals i ;;
    s1 <- notify fuel obs (Next v) s ;;
    from_loop fuel vals obs (S i) n' s1
  end.

(** [Subscription * subscribeHandler_from(Observer<V,E> * observer)] *)
Definition subscribeHandler_from (fuel : nat) (this : ObservablePtr) (obs : ObsPtr) (s : Store)
  : Res (ObservablePtr * Store) :=
  o <- load this s ;;
  s1 <- from_loop fuel (values o) obs 0 (valuesCount o) s ;;
  s2 <- notify fuel obs Complete s1 ;;
  completed this s2.

(** [Subscription * subscribeHandler_throwError(Observer<V,E> * observer)] *)
Definition subscribeHandler_throwError (fuel : nat) (this : ObservablePtr) (obs : ObsPtr)
    (s : Store) : Res (ObservablePtr * Store) :=
  o <- load this s ;;
  e <- deref (err o) ;;
  s1 <- notify fuel obs (Error e) s ;;
  s2 <- notify fuel obs Complete s1 ;;
  completed this s2.

(** [mappingObserver->observer = observer;] *)
Definition set_observer (obs : ObsPtr) (o : ObserverObj) : ObserverObj :=
  match o with
  | PlainObserver => PlainObserver
  | Mapping m => Mapping {| observer := Some obs; members := members m; methods := methods m |}
  end.

Definition store_observer (mo obs : ObsPtr) (s : Store) : Res Store :=
  match observers s !! mo with
  | Some (Mapping _) => Ok (set_observers (alter (set_observer obs) mo) s)
  | _ => Fail BadPointer
  end.

(** [Subscription * subscribeHandler_map(Observer<V,E> * observer)], where
    [subscribe_up] is [subscribe] with the remaining call depth. *)
Definition subscribeHandler_map
    (subscribe_up : ObservablePtr -> ObsPtr -> Store -> Res (ObservablePtr * Store))
    (this : ObservablePtr) (obs : ObsPtr) (s : Store) : Res (ObservablePtr * Store) :=
  o <- load this s ;;
  mo <- deref (mappingObserver o) ;;
  s1 <- store_observer mo obs s ;;
  up <- deref (mappingObservable o) ;;
  subscribe_up up mo s1.

(** [Subscription * subscribe(Observer<V,E> & observer)] *)
Fixpoint subscribe (fuel : nat) (this : ObservablePtr) (obs : ObsPtr) (s : Store)
  : Res (ObservablePtr * Store) :=
  match fuel with
  | 0 => Fail OutOfFuel
  | S fuel' =>
    o <- load this s ;;
    match subscribeHandler o with
    | Some H_of => subscribeHandler_of fuel' this obs s
    | Some H_from => subscribeHandler_from fuel' this obs s
    | Some H_throwError => subscribeHandler_throwError fuel' this obs s
    | Some H_map => subscribeHandler_map (subscribe fuel') this obs s
    | None => Ok (this, s)
    end
  end.

(** [void unsubscribe()], called through the [Subscription *] that
    [subscribe] returned. *)
Definition clear (o : Observable) : Observable :=
  {| subscribeHandler := subscribeHandler o;
     mappingObserver := mappingObserver o;
     mappingObservable := mappingObservable o;
     values := None;
     valuesCount := 0;
     err := None |}.

Definition unsubscribe (this : ObservablePtr) (s : Store) : Res Store :=
  _ <- load this s ;;
  Ok (set_observables (alter clear this) s).

(** An observer object constructed by the caller (on the stack in [main]):
    it gets the next free observer address. *)
Definition new_observer (o : ObserverObj) (s : Store) : ObsPtr * Store :=
  (length (observers s), set_observers (fun l => l ++ [o]) s).

Definition empty_store : Store :=
  {| observables := []; observers := []; trace := [] |}.

(** Several calls appended to the trace at once. *)
Definition record_calls (t : list (ObsPtr * Notification)) (s : Store) : Store :=
  {| observables := observables s; observers := observers s; trace := trace s ++ t |}.

(** What the caller of [subscribe] sees: the Subscription returned and the
    calls made so far. *)
Definition outcome (r : Res (ObservablePtr * Store))
  : Res (ObservablePtr * list (ObsPtr * Notification)) :=
  match r with
  | Ok (sub, s) => Ok (sub, trace s)
  | Fail f => Fail f
  end.

(** The calls made on observer [p], in order. *)
Definition calls_on (p : ObsPtr) (t : list (ObsPtr * Notification)) : list Notification :=
  snd <$> filter (fun c => fst c = p) t.

(** The calls a run has made on observer [p]. *)
Definition delivered (p : ObsPtr) (r : Res (ObservablePtr * Store)) : Res (list Notification) :=
  match r with
  | Ok (_, s) => Ok (calls_on p (trace s))
  | Fail f => Fail f
  end.

(** [p] designates a plain observer: an observer of the caller that does not
    call back into the observables or into other observers. *)
Definition is_plain (s : Store) (p : ObsPtr) : Prop :=
  observers s !! p = Some PlainObserver.

(** The Observable at [this] has [subscribeHandler == h] ([None] is nullptr:
    the Observable has completed). *)
Definition handler_at (s : Store) (this : ObservablePtr) (h : option SubscribeHandler) : Prop :=
  subscribeHandler <$> observables s !! this = Some h.

(** [p] designates a mapping observer. *)
Definition is_mapping (s : Store) (p : ObsPtr) : bool :=
  match observers s !! p with
  | Some (Mapping _) => true
  | _ => false
  end.

(** The map chain under [this]: the unmapped Observable it is built on, and
    the mapping observers of the [map] stages on the way down, outermost
    first.  [k] bounds the number of stages followed. *)
Fixpoint chain (k : nat) (s : Store) (this : ObservablePtr)
  : option (ObservablePtr * list ObsPtr) :=
  match observables s !! this with
  | None => None
  | Some o =>
    match subscribeHandler o with
    | Some H_map =>
      match k, mappingObserver o, mappingObservable o with
      | S k', Some mo, Some up =>
        match chain k' s up with
        | Some (root, ms) => Some (root, mo :: ms)
        | None => None
        end
      | _, _, _ => None
      end
    | _ => Some (this, [])
    end
  end.

(** What an unmapped Observable delivers when subscribed, read off its
    members: nothing once completed, otherwise what its handler calls.  [None]
    when the handler dereferences nullptr or reads past the array, and for a
    mapped Observable. *)
Definition emission (o : Observable) : option (list Notification) :=
  match subscribeHandler o with
  | None => Some []
  | Some H_of =>
    match values o with
    | Some (v :: _) => Some [Next v; Complete]
    | _ => None
    end
  | Some H_from =>
    match values o with
    | Some vs =>
      if valuesCount o <=? length vs
      then Some ((Next <$> take (valuesCount o) vs) ++ [Complete])
      else None
    | None => if valuesCount o is 0 then Some [Complete] else None
    end
  | Some H_throwError =>
    match err o with
    | Some e => Some [Error e; Complete]
    | None => None
    end
  | Some H_map => None
  end.

(** The contract of a mapping stage: [next] only makes [next] calls on the
    observer behind it; [error] and [complete] are forwarded unchanged. *)
Definition is_next (n : Notification) : Prop :=
  match n with
  | Next _ => True
  | _ => False
  end.

Definition next_to_next (ms : MappingMethods) : Prop :=
  forall st v, Forall is_next (m_next ms st v).1.

Definition forwards_terminals (ms : MappingMethods) : Prop :=
  (forall st e, (m_error ms st e).1 = [Error e]) /\
  (forall st, (m_complete ms st).1 = [Complete]).

Definition forwarding (ms : MappingMethods) : Prop :=
  next_to_next ms /\ forwards_terminals ms.

Definition forwarding_at (s : Store) (p : ObsPtr) : Prop :=
  exists m, observers s !! p = Some (Mapping m) /\ forwarding (methods m).

(** What one mapping observer with methods [ms] and private members [st]
    calls on the observer behind it when it is called with [T], and the
    private members it is left with. *)
Fixpoint stage_run (ms : MappingMethods) (st : St) (T : list Notification)
  : list Notification * St :=
  match T with
  | [] => ([], st)
  | n :: T' =>
    let '(calls, st1) := method ms st n in
    let '(rest, st2) := stage_run ms st1 T' in
    (calls ++ rest, st2)
  end.

(** What reaches the observer at the end of a chain of forwarding stages for
    one notification, and for several. *)
Definition image (n : Notification) (l : list Notification) : Prop :=
  match n with
  | Next _ => Forall is_next l
  | _ => l = [n]
  end.

Inductive images : list Notification -> list Notification -> Prop :=
| images_nil : images [] []
| images_cons n ns l ls : image n l -> images ns ls -> images (n :: ns) (l ++ ls).

(** The part of the observer objects that calls do not change: the class (its
    methods) and the [observer] pointer. *)
Definition wire (o : ObserverObj) : option (option ObsPtr * MappingMethods) :=
  match o with
  | PlainObserver => None
  | Mapping m => Some (observer m, methods m)
  end.

Definition wiring (s : Store) : list (option (option ObsPtr * MappingMethods)) :=
  wire <$> observers s.

(** [receiver w path d obs]: calls on [d] travel through the mapping
    observers [path], each one's [observer] pointing to the next, and end at
    the plain observer [obs]. *)
Fixpoint receiver (w : list (option (option ObsPtr * MappingMethods)))
    (path : list ObsPtr) (d obs : ObsPtr) : Prop :=
  match path with
  | [] => d = obs /\ w !! obs = Some None
  | m :: path' =>
    d = m /\ exists ms d', w !! m = Some (Some (Some d', ms)) /\ receiver w path' d' obs
  end.

(** The terminal signals: [error] and [complete]. *)
Definition is_terminal (n : Notification) : bool :=
  match n with
  | Next _ => false
  | Error _ | Complete => true
  end.

Definition is_error (n : Notification) : bool :=
  match n with
  | Error _ => true
  | _ => false
  end.

Definition is_complete (n : Notification) : bool :=
  match n with
  | Complete => true
  | _ => false
  end.

Definition count (f : Notification -> bool) (l : list Notification) : nat :=
  length (List.filter f l).

Definition terminals (l : list Notification) : nat := count is_terminal l.

(** Only terminal signals follow the first terminal signal. *)
Fixpoint no_next_after_terminal (l : list Notification) : bool :=
  match l with
  | [] => true
  | n :: l' => if is_terminal n then forallb is_terminal l' else no_next_after_terminal l'
  end.

(** [s'] is [s] after calls only: the Observables and the wiring are the
    same, and the trace has grown by [t]. *)
Definition extends (s s' : Store) (t : list (ObsPtr * Notification)) : Prop :=
  wiring s' = wiring s /\ observables s' = observables s /\ trace s' = trace s ++ t.

(** [delivers obs fuel path d]: a call on [d] returns, and what reaches [obs]
    through the forwarding stages [path] is the image of the call. *)
Definition delivers (obs : ObsPtr) (fuel : nat) (path : list ObsPtr) (d : ObsPtr) : Prop :=
  forall s n, receiver (wiring s) path d obs ->
    exists s' t, notify fuel d n s = Ok s' /\ extends s s' t /\
      (Forall (forwarding_at s) path -> image n (calls_on obs t)).

(** [unsubscribe()] called [k] times in a row. *)
Fixpoint unsubscribe_times (k : nat) (this : ObservablePtr) (s : Store) : Res Store :=
  match k with
  | 0 => Ok s
  | S k' => s' <- unsubscribe this s ;; unsubscribe_times k' this s'
  end.

(** ** Several map stages in a row *)

(** The class and the private members of the mapping observer at [p]. *)
Definition stage_of (s : Store) (p : ObsPtr) : option (MappingMethods * St) :=
  match observers s !! p with
  | Some (Mapping m) => Some (methods m, members m)
  | _ => None
  end.

(** [stages] are the classes and private members of the mapping observers
    [path], in this order. *)
Definition stages_at (s : Store) (path : list ObsPtr)
    (stages : list (MappingMethods * St)) : Prop :=
  Forall2 (fun p st => stage_of s p = Some st) path stages.

(** What comes out of a row of mapping observers, the first one called with
    [T], each next one with what the one before it forwards; and the private
    members they are left with. *)
Fixpoint pipe (stages : list (MappingMethods * St)) (T : list Notification)
  : list Notification * list (MappingMethods * St) :=
  match stages with
  | [] => (T, [])
  | (ms, st) :: rest =>
    let '(out, st') := stage_run ms st T in
    let '(res, rest') := pipe rest out in
    (res, (ms, st') :: rest')
  end.

(** [pipes obs fuel path d]: calls on [d] return, and what reaches [obs]
    through the mapping observers [path] is their [pipe]. *)
Definition pipes (obs : ObsPtr) (fuel : nat) (path : list ObsPtr) (d : ObsPtr) : Prop :=
  forall s stages T,
    receiver (wiring s) path d obs -> stages_at s path stages ->
    exists s' t,
      forM (notify fuel d) T s = Ok s' /\ extends s s' t /\
      calls_on obs t = (pipe stages T).1 /\
      stages_at s' path (pipe stages T).2 /\
      (forall p, p ∉ path -> observers s' !! p = observers s !! p) /\
      Forall (fun c => c.1 ∈ obs :: path) t.

(** The mapping observer at [p] has methods [ms] and its [observer] points to
    itself. *)
Definition self_loop (ms : MappingMethods) (s : Store) (p : ObsPtr) : Prop :=
  exists m, observers s !! p = Some (Mapping m) /\ observer m = Some p /\ methods m = ms.


End Classes.

Arguments Notification : clear implicits.
Arguments MappingMethods : clear implicits.
Arguments MappingObserver : clear implicits.
Arguments ObserverObj : clear implicits.
Arguments Observable : clear implicits.
Arguments Store : clear implicits.

(** ** The demo classes of main.cpp *)

(** [int]: 32 bits, two's complement.  Overflow of [2 * value] is undefined
    in C++; the embedding gives it the wrap-around of the usual targets. *)
Definition int_wrap (z : Z) : Z := ((z + 2 ^ 31) mod 2 ^ 32 - 2 ^ 31)%Z.

Section Demo.

Context {E : Type}.

(** [IntMapObserver::next]: [if (forward) this->observer->next(2 * value);
    forward = !forward;] *)
Definition IntMapObserver_next (forward : bool) (value : Z)
  : list (Notification Z E) * bool :=
  (if forward then [Next (int_wrap (2 * value))] else [], negb forward).

(** [IntMapObserver::error]: [this->observer->error(err);] *)
Definition IntMapObserver_error (forward : bool) (err : E)
  : list (Notification Z E) * bool :=
  ([Error err], forward).

(** [IntMapObserver::complete]: [this->observer->complete();] *)
Definition IntMapObserver_complete (forward : bool)
  : list (Notification Z E) * bool :=
  ([Complete], forward).

Definition IntMapObserver_methods : MappingMethods Z E bool :=
  {| m_next := IntMapObserver_next;
     m_error := IntMapObserver_error;
     m_complete := IntMapObserver_complete |}.

(** [IntMapObserver() { forward = true; }] *)
Definition IntMapObserver : ObserverObj Z E bool :=
  Mapping {| observer := None; members := true; methods := IntMapObserver_methods |}.

(** [IntObserver(string id)]: prints its id and what it is called with. *)
Definition IntObserver : ObserverObj Z E bool := PlainObserver.

End Demo.

(** [int series[] = { 1, -2, 3, -4, 5, -6, 7 };] *)
Definition series : list Z := [1; -2; 3; -4; 5; -6; 7]%Z.

(** [main], test case 'map': the objects constructed before the first
    [subscribe].  The store starts empty, so every call in the trace is a call
    of the subscription. *)
Record MapTest := {
  myIntObserver : ObsPtr;
  intSeriesObservable : ObservablePtr;
  myMappingObserver : ObsPtr;
  mappedSeriesObservable : ObservablePtr;
  map_store : Store Z string bool }.

Definition map_test : MapTest :=
  let '(obs, s1) := new_observer IntObserver empty_store in
  let '(src, s2) := from (Some series) 7 s1 in
  let '(mo, s3) := new_observer IntMapObserver s2 in
  let '(mapped, s4) := map src mo s3 in
  {| myIntObserver := obs; intSeriesObservable := src;
     myMappingObserver := mo; mappedSeriesObservable := mapped;
     map_store := s4 |}.

(** The Subscription a run returned. *)
Definition subscription {V E St} (r : Res (nat * Store V E St)) : Res nat :=
  match r with
  | Ok (sub, _) => Ok sub
  | Fail f => Fail f
  end.

(** [main], test cases 'of', 'from' and 'throwError': [myIntObserver] and the
    Observable the test case constructs. *)
Record Fixture := {
  the_observer : nat;
  the_observable : nat;
  the_store : Store Z string bool }.

Definition of_test : Fixture :=
  let '(obs, s1) := new_observer IntObserver empty_store in
  let '(singleIntObservable, s2) := of_ 1%Z s1 in
  {| the_observer := obs; the_observable := singleIntObservable; the_store := s2 |}.

Definition from_test : Fixture :=
  let '(obs, s1) := new_observer IntObserver empty_store in
  let '(intSeriesObservable, s2) := from (Some series) 7 s1 in
  {| the_observer := obs; the_observable := intSeriesObservable; the_store := s2 |}.

Definition error_test : Fixture :=
  let '(obs, s1) := new_observer IntObserver empty_store in
  let '(errorObservable, s2) := throwError "An error occured!"%string s1 in
  {| the_observer := obs; the_observable := errorObservable; the_store := s2 |}.

(** [mySubscription = errorObservable->subscribe(myIntObserver);] *)
Definition error_test_subscribe (fuel : nat) : Res (nat * Store Z string bool) :=
  subscribe fuel (the_observable error_test) (the_observer error_test)
            (the_store error_test).

(** The error Observable mapped through a fresh [IntMapObserver] (not in
    [main]). *)
Definition mapped_error_test : MapTest :=
  let '(obs, s1) := new_observer IntObserver empty_store in
  let '(src, s2) := throwError "An error occured!"%string s1 in
  let '(mo, s3) := new_observer IntMapObserver s2 in
  let '(mapped, s4) := map src mo s3 in
  {| myIntObserver := obs; intSeriesObservable := src;
     myMappingObserver := mo; mappedSeriesObservable := mapped;
     map_store := s4 |}.

(** [from(series, 3)] and [from(series, 9)]: a count below and above the seven
    elements of the array (not in [main]). *)
Definition short_count_test : Fixture :=
  let '(obs, s1) := new_observer IntObserver empty_store in
  let '(src, s2) := from (Some series) 3 s1 in
  {| the_observer := obs; the_observable := src; the_store := s2 |}.

Definition long_count_test : Fixture :=
  let '(obs, s1) := new_observer IntObserver empty_store in
  let '(src, s2) := from (Some series) 9 s1 in
  {| the_observer := obs; the_observable := src; the_store := s2 |}.

(** The series mapped twice (not in [main]): through two [IntMapObserver]
    objects, and through one object used for both stages. *)
Record ChainTest := {
  chain_observer : nat;
  chain_source : nat;
  inner_stage : nat;
  chain_mid : nat;
  outer_stage : nat;
  chain_top : nat;
  chain_store : Store Z string bool }.

Definition two_stage_test : ChainTest :=
  let '(obs, s1) := new_observer IntObserver empty_store in
  let '(src, s2) := from (Some series) 7 s1 in
  let '(a, s3) := new_observer IntMapObserver s2 in
  let '(mid, s4) := map src a s3 in
  let '(b, s5) := new_observer IntMapObserver s4 in
  let '(top, s6) := map mid b s5 in
  {| chain_observer := obs; chain_source := src; inner_stage := a; chain_mid := mid;
     outer_stage := b; chain_top := top; chain_store := s6 |}.

Definition same_stage_test : ChainTest :=
  let '(obs, s1) := new_observer IntObserver empty_store in
  let '(src, s2) := from (Some series) 7 s1 in
  let '(a, s3) := new_observer IntMapObserver s2 in
  let '(mid, s4) := map src a s3 in
  let '(top, s5) := map mid a s4 in
  {| chain_observer := obs; chain_source := src; inner_stage := a; chain_mid := mid;
     outer_stage := a; chain_top := top; chain_store := s5 |}.

(** [mySubscription = mappedSeriesObservable->subscribe(myIntObserver);] *)
Definition map_test_subscribe (fuel : nat) : Res (ObservablePtr * Store Z string bool) :=
  subscribe fuel (mappedSeriesObservable map_test) (myIntObserver map_test)
            (map_store map_test).

(** The store of the 'map' test case after this first [subscribe]. *)
Definition map_store_completed : Store Z string bool :=
  match map_test_subscribe 4 with
  | Ok (_, s) => s
  | Fail _ => map_store map_test
  end.

(** * Properties *)

Section Properties.

Context {V E St : Type}.
Implicit Types (s : Store V E St) (n : Notification V E) (o : Observable V E).
Implicit Types (obs p : ObsPtr) (this : ObservablePtr).
Implicit Types (w : list (option (option nat * MappingMethods V E St))).

(** ** The monad and the store *)

Lemma record_calls_nil s : record_calls [] s = s.
Proof. destruct s; unfold record_calls; simpl. by rewrite app_nil_r. Qed.

Lemma record_calls_app t1 t2 s :
  record_calls t2 (record_calls t1 s) = record_calls (t1 ++ t2) s.
Proof. unfold record_calls; simpl. by rewrite app_assoc. Qed.

Lemma record_call_calls p n s : record_call p n s = record_calls [(p, n)] s.
Proof. reflexivity. Qed.

Lemma is_plain_record_calls t s p : is_plain (record_calls t s) p <-> is_plain s p.
Proof. reflexivity. Qed.

Lemma alloc_lookup o s : observables (alloc o s).2 !! (alloc o s).1 = Some o.
Proof. simpl. by rewrite list_lookup_middle. Qed.

Lemma alloc_lookup_old o s this :
  this < length (observables s) ->
  observables (alloc o s).2 !! this = observables s !! this.
Proof. intros Hlt. simpl. by rewrite lookup_app_l. Qed.

(** ** More call depth does not change a result *)

Lemma bind_Ok {A B} (r : Res A) (k : A -> Res B) b :
  (x <- r ;; k x) = Ok b -> exists a, r = Ok a /\ k a = Ok b.
Proof. destruct r as [a|]; [|done]. intros H. by exists a. Qed.

Lemma forM_mono {A S} (f g : A -> S -> Res S) (l : list A) (x y : S) :
  (forall a x1 y1, f a x1 = Ok y1 -> g a x1 = Ok y1) ->
  forM f l x = Ok y -> forM g l x = Ok y.
Proof.
  intros Hfg. revert x. induction l as [|a l IH]; intros x; [done|].
  cbn [forM]. intros (x1 & Hf & Hrest)%bind_Ok.
  rewrite (Hfg _ _ _ Hf). cbn [bind]. by apply IH.
Qed.

Lemma notify_mono fuel fuel' p n s r :
  fuel <= fuel' -> notify fuel p n s = Ok r -> notify fuel' p n s = Ok r.
Proof.
  revert fuel' p n s r.
  induction fuel as [|fuel IH]; intros fuel' p n s r Hle; [done|].
  destruct fuel' as [|fuel']; [lia|].
  cbn [notify].
  destruct (observers s !! p) as [[|m]|]; try done.
  destruct (run_method m n) as [calls st'].
  intros (s1 & Hf & Hrest)%bind_Ok.
  eapply forM_mono in Hf; [rewrite Hf; exact Hrest|].
  intros c s2 r2 (d & Hd & Hn)%bind_Ok. rewrite Hd; cbn [bind].
  apply IH with (fuel' := fuel') in Hn; [done|lia].
Qed.

Lemma from_loop_mono fuel fuel' vals obs i k s r :
  fuel <= fuel' ->
  from_loop fuel vals obs i k s = Ok r -> from_loop fuel' vals obs i k s = Ok r.
Proof.
  intros Hle. revert i s. induction k as [|k IH]; intros i s; [done|].
  cbn [from_loop].
  intros (v & -> & (s1 & Hn & Hrest)%bind_Ok)%bind_Ok. cbn [bind].
  rewrite (notify_mono _ _ _ _ _ _ Hle Hn). cbn [bind]. by apply IH.
Qed.

Lemma subscribe_mono fuel fuel' this obs s r :
  fuel <= fuel' -> subscribe fuel this obs s = Ok r -> subscribe fuel' this obs s = Ok r.
Proof.
  revert fuel' this obs s r.
  induction fuel as [|fuel IH]; intros fuel' this obs s r Hle; [done|].
  destruct fuel' as [|fuel']; [lia|].
  assert (fuel <= fuel') as Hle' by lia.
  cbn [subscribe].
  destruct (load this s) as [o|] eqn:Ho; [|done]. cbn [bind].
  destruct (subscribeHandler o) as [[]|]; [| | | |done].
  - unfold subscribeHandler_of. rewrite Ho; cbn [bind].
    intros (v & -> & (s1 & H1 & (s2 & H2 & Hc)%bind_Ok)%bind_Ok)%bind_Ok. cbn [bind].
    rewrite (notify_mono _ _ _ _ _ _ Hle' H1); cbn [bind].
    by rewrite (notify_mono _ _ _ _ _ _ Hle' H2).
  - unfold subscribeHandler_from. rewrite Ho; cbn [bind].
    intros (s1 & H1 & (s2 & H2 & Hc)%bind_Ok)%bind_Ok.
    rewrite (from_loop_mono _ _ _ _ _ _ _ _ Hle' H1); cbn [bind].
    by rewrite (notify_mono _ _ _ _ _ _ Hle' H2).
  - unfold subscribeHandler_throwError. rewrite Ho; cbn [bind].
    intros (e & -> & (s1 & H1 & (s2 & H2 & Hc)%bind_Ok)%bind_Ok)%bind_Ok. cbn [bind].
    rewrite (notify_mono _ _ _ _ _ _ Hle' H1); cbn [bind].
    by rewrite (notify_mono _ _ _ _ _ _ Hle' H2).
  - unfold subscribeHandler_map. rewrite Ho; cbn [bind].
    intros (mo & Hmo & (s1 & Hs1 & (up & Hu & Hup)%bind_Ok)%bind_Ok)%bind_Ok.
    rewrite Hmo; cbn [bind]. rewrite Hs1; cbn [bind]. rewrite Hu; cbn [bind].
    by apply IH.
Qed.

(** ** Calls on a plain observer *)

Lemma notify_plain fuel p n s :
  is_plain s p -> notify (S fuel) p n s = Ok (record_call p n s).
Proof. unfold is_plain; intros Hp; simpl. by rewrite Hp. Qed.

Lemma notify_plain_calls fuel p n t s :
  is_plain s p -> notify (S fuel) p n (record_calls t s) = Ok (record_calls (t ++ [(p, n)]) s).
Proof.
  intros Hp. rewrite notify_plain by done.
  by rewrite record_call_calls, record_calls_app.
Qed.

Lemma from_loop_plain fuel obs (pre rest : list V) s :
  is_plain s obs ->
  from_loop (S fuel) (Some (pre ++ rest)) obs (length pre) (length rest) s
  = Ok (record_calls ((fun v => (obs, Next v)) <$> rest) s).
Proof.
  intros Hp. revert pre s Hp.
  induction rest as [|v rest IH]; intros pre s Hp.
  - simpl. by rewrite record_calls_nil.
  - cbn [length from_loop]. unfold index; cbn [deref bind].
    rewrite list_lookup_middle by done. cbn [bind].
    rewrite notify_plain by done. cbn [bind].
    replace (S (length pre)) with (length (pre ++ [v])) by (rewrite length_app; simpl; lia).
    replace (pre ++ v :: rest) with ((pre ++ [v]) ++ rest) by (by rewrite <- app_assoc).
    rewrite IH by done.
    by rewrite record_call_calls, record_calls_app.
Qed.

(** ** Subscribing a plain observer to a live, unmapped Observable *)

Lemma load_Some this o s : observables s !! this = Some o -> load this s = Ok o.
Proof. unfold load. by intros ->. Qed.

Lemma completed_spec this o s :
  observables s !! this = Some o ->
  exists s',
    completed this s = Ok (this, s') /\
    trace s' = trace s /\ observers s' = observers s /\
    handler_at s' this None /\
    forall that, that <> this -> observables s' !! that = observables s !! that.
Proof.
  intros Ho. eexists; split; [reflexivity|]. repeat split.
  - unfold handler_at; cbn [set_observables observables].
    by rewrite list_lookup_alter_eq, Ho.
  - intros that Hne; cbn [set_observables observables].
    by rewrite list_lookup_alter_ne.
Qed.

Lemma subscribeHandler_of_plain fuel this obs o v rest s :
  observables s !! this = Some o -> values o = Some (v :: rest) -> is_plain s obs ->
  subscribeHandler_of (S fuel) this obs s
  = completed this (record_calls [(obs, Next v); (obs, Complete)] s).
Proof.
  intros Ho Hv Hp. unfold subscribeHandler_of.
  rewrite (load_Some _ _ _ Ho); cbn [bind]. rewrite Hv; cbn [index deref bind lookup list_lookup].
  rewrite notify_plain, record_call_calls by done. cbn [bind].
  by rewrite notify_plain_calls.
Qed.

Lemma subscribeHandler_from_plain fuel this obs o vs s :
  observables s !! this = Some o -> values o = Some vs -> valuesCount o = length vs ->
  is_plain s obs ->
  subscribeHandler_from (S fuel) this obs s
  = completed this (record_calls (((fun v => (obs, Next v)) <$> vs) ++ [(obs, Complete)]) s).
Proof.
  intros Ho Hv Hc Hp. unfold subscribeHandler_from.
  rewrite (load_Some _ _ _ Ho); cbn [bind]. rewrite Hv, Hc.
  pose proof (from_loop_plain fuel obs [] vs s Hp) as Hloop.
  cbn [app length] in Hloop. rewrite Hloop; cbn [bind].
  by rewrite notify_plain_calls.
Qed.

Lemma subscribeHandler_throwError_plain fuel this obs o e s :
  observables s !! this = Some o -> err o = Some e -> is_plain s obs ->
  subscribeHandler_throwError (S fuel) this obs s
  = completed this (record_calls [(obs, Error e); (obs, Complete)] s).
Proof.
  intros Ho He Hp. unfold subscribeHandler_throwError.
  rewrite (load_Some _ _ _ Ho); cbn [bind]. rewrite He; cbn [deref bind].
  rewrite notify_plain, record_call_calls by done. cbn [bind].
  by rewrite notify_plain_calls.
Qed.

Lemma subscribe_dispatch fuel this obs o s :
  observables s !! this = Some o ->
  subscribe (S fuel) this obs s =
    match subscribeHandler o with
    | Some H_of => subscribeHandler_of fuel this obs s
    | Some H_from => subscribeHandler_from fuel this obs s
    | Some H_throwError => subscribeHandler_throwError fuel this obs s
    | Some H_map => subscribeHandler_map (subscribe fuel) this obs s
    | None => Ok (this, s)
    end.
Proof. intros Ho. cbn [subscribe]. by rewrite (load_Some _ _ _ Ho). Qed.

(** C1.  Let [this] be an Observable in the state [of(value)] constructs it in
    (so not completed), and [obs] a plain observer.  Then [subscribe(obs)]
    returns [this] as Subscription, and the calls it makes are exactly
    [obs.next(value)] then [obs.complete()]: the trace grows by these two
    calls and by nothing else.  The Observable is completed afterwards. *)
Theorem of_subscribe_next_complete s this obs value fuel :
  observables s !! this = Some (Observable_of value) ->
  is_plain s obs ->
  exists s',
    subscribe (S (S fuel)) this obs s = Ok (this, s') /\
    trace s' = trace s ++ [(obs, Next value); (obs, Complete)] /\
    handler_at s' this None.
Proof.
  intros Ho Hp.
  rewrite (subscribe_dispatch _ _ _ _ _ Ho); cbn [subscribeHandler Observable_of].
  rewrite (subscribeHandler_of_plain fuel this obs _ value [] s Ho) by done.
  destruct (completed_spec this (Observable_of value)
              (record_calls [(obs, Next value); (obs, Complete)] s) Ho)
    as (s' & Hs' & Ht & _ & Hh & _).
  exists s'. by rewrite Hs', Ht.
Qed.

(** C2.  Let [this] be an Observable in the state [from(vs, length vs)]
    constructs it in, for any sequence [vs] (the empty one included), and [obs]
    a plain observer.  Then [subscribe(obs)] calls [obs.next] once per element
    of [vs], in the order of [vs], then [obs.complete()] once, and makes no
    other call; for the empty sequence the only call is [obs.complete()]. *)
Theorem from_subscribe_each_then_complete s this obs (vs : list V) fuel :
  observables s !! this = Some (Observable_from (Some vs) (length vs)) ->
  is_plain s obs ->
  exists s',
    subscribe (S (S fuel)) this obs s = Ok (this, s') /\
    trace s' = trace s ++ ((fun v => (obs, Next v)) <$> vs) ++ [(obs, Complete)] /\
    (vs = [] -> trace s' = trace s ++ [(obs, Complete)]) /\
    handler_at s' this None.
Proof.
  intros Ho Hp.
  rewrite (subscribe_dispatch _ _ _ _ _ Ho); cbn [subscribeHandler Observable_from].
  rewrite (subscribeHandler_from_plain fuel this obs _ vs s Ho) by done.
  destruct (completed_spec this _
              (record_calls (((fun v => (obs, Next v)) <$> vs) ++ [(obs, Complete)]) s) Ho)
    as (s' & Hs' & Ht & _ & Hh & _).
  exists s'. rewrite Hs', Ht. repeat split; try done.
  by intros ->.
Qed.

(** C3.  Let [this] be an Observable in the state [throwError(e)] constructs
    it in, and [obs] a plain observer.  Then [subscribe(obs)] calls
    [obs.error(e)] once, then [obs.complete()] once, and makes no other call
    (in particular no [next]). *)
Theorem throwError_subscribe_error_complete s this obs (e : E) fuel :
  observables s !! this = Some (Observable_throwError e) ->
  is_plain s obs ->
  exists s',
    subscribe (S (S fuel)) this obs s = Ok (this, s') /\
    trace s' = trace s ++ [(obs, Error e); (obs, Complete)] /\
    handler_at s' this None.
Proof.
  intros Ho Hp.
  rewrite (subscribe_dispatch _ _ _ _ _ Ho); cbn [subscribeHandler Observable_throwError].
  rewrite (subscribeHandler_throwError_plain fuel this obs _ e s Ho) by done.
  destruct (completed_spec this _
              (record_calls [(obs, Error e); (obs, Complete)] s) Ho)
    as (s' & Hs' & Ht & _ & Hh & _).
  exists s'. by rewrite Hs', Ht.
Qed.

(** ** The three emission handlers deliver the emission *)

Lemma bind_ext {A B} (r : Res A) (k k' : A -> Res B) :
  (forall a, k a = k' a) -> (x <- r ;; k x) = (x <- r ;; k' x).
Proof. intros Hk. destruct r; [apply Hk|done]. Qed.

Lemma forM_ext {A S} (f g : A -> S -> Res S) (l : list A) (x : S) :
  (forall a x1, f a x1 = g a x1) -> forM f l x = forM g l x.
Proof.
  intros Hfg. revert x. induction l as [|a l IH]; intros x; [done|].
  cbn [forM]. rewrite Hfg. by apply bind_ext.
Qed.

Lemma forM_app {A S} (f : A -> S -> Res S) (l1 l2 : list A) (x : S) :
  forM f (l1 ++ l2) x = (x1 <- forM f l1 x ;; forM f l2 x1).
Proof.
  revert x. induction l1 as [|a l1 IH]; intros x; [done|].
  cbn [app forM]. destruct (f a x) as [x1|]; [|done]. cbn [bind]. apply IH.
Qed.

Lemma forM_snoc_then {A B S} (f : A -> S -> Res S) (l : list A) (a : A) (x : S)
    (k : S -> Res B) :
  (x1 <- forM f (l ++ [a]) x ;; k x1) = (x1 <- forM f l x ;; x2 <- f a x1 ;; k x2).
Proof.
  rewrite forM_app. destruct (forM f l x) as [x1|]; [|done]. cbn [bind forM].
  by destruct (f a x1).
Qed.

Lemma from_loop_forM fuel (vs : list V) d i k s :
  i + k <= length vs ->
  from_loop fuel (Some vs) d i k s = forM (notify fuel d) (Next <$> take k (drop i vs)) s.
Proof.
  revert i s. induction k as [|k IH]; intros i s Hle; [done|].
  destruct (lookup_lt_is_Some_2 vs i ltac:(lia)) as [v Hv].
  rewrite (drop_S _ _ _ Hv). cbn [take fmap list_fmap forM from_loop].
  unfold index; cbn [deref bind]. rewrite Hv; cbn [bind].
  apply bind_ext; intros s1. apply IH. lia.
Qed.

Lemma subscribe_emission fuel this d o T s :
  observables s !! this = Some o -> emission o = Some T ->
  subscribe (S fuel) this d s =
    match subscribeHandler o with
    | None => Ok (this, s)
    | Some _ => s' <- forM (notify fuel d) T s ;; completed this s'
    end.
Proof.
  intros Ho. rewrite (subscribe_dispatch _ _ _ _ _ Ho). unfold emission.
  destruct (subscribeHandler o) as [[]|]; [| | |done|done].
  - destruct (values o) as [[|v vs]|] eqn:Hv; [done| |done]. intros [= <-].
    unfold subscribeHandler_of. rewrite (load_Some _ _ _ Ho); cbn [bind].
    rewrite Hv; cbn [index deref bind lookup list_lookup].
    cbn [forM]. destruct (notify fuel d (Next v) s) as [s1|]; [|done]. cbn [bind].
    by destruct (notify fuel d Complete s1).
  - unfold subscribeHandler_from. rewrite (load_Some _ _ _ Ho); cbn [bind].
    destruct (values o) as [vs|] eqn:Hv.
    + destruct (valuesCount o <=? length vs) eqn:Hc; [|done]. intros [= <-].
      apply Nat.leb_le in Hc. rewrite from_loop_forM by (simpl; lia).
      rewrite drop_0. symmetry. apply forM_snoc_then.
    + destruct (valuesCount o); [|done]. intros [= <-].
      cbn [from_loop forM bind]. by destruct (notify fuel d Complete s).
  - destruct (err o) as [e|] eqn:He; [|done]. intros [= <-].
    unfold subscribeHandler_throwError. rewrite (load_Some _ _ _ Ho); cbn [bind].
    rewrite He; cbn [deref bind].
    cbn [forM]. destruct (notify fuel d (Error e) s) as [s1|]; [|done]. cbn [bind].
    by destruct (notify fuel d Complete s1).
Qed.

(** ** Calls through a chain of mapping observers *)

Lemma calls_on_app p (t1 t2 : list (nat * Notification V E)) :
  calls_on p (t1 ++ t2) = calls_on p t1 ++ calls_on p t2.
Proof. unfold calls_on. by rewrite filter_app, fmap_app. Qed.

Lemma calls_on_cons_eq p n (t : list (nat * Notification V E)) :
  calls_on p ((p, n) :: t) = n :: calls_on p t.
Proof. unfold calls_on. by rewrite filter_cons_True. Qed.

Lemma calls_on_cons_ne p q n (t : list (nat * Notification V E)) :
  q <> p -> calls_on p ((q, n) :: t) = calls_on p t.
Proof. intros Hne. unfold calls_on. by rewrite filter_cons_False. Qed.

Lemma extends_refl s : extends s s [].
Proof. unfold extends. by rewrite app_nil_r. Qed.

Lemma extends_trans s1 s2 s3 t1 t2 :
  extends s1 s2 t1 -> extends s2 s3 t2 -> extends s1 s3 (t1 ++ t2).
Proof.
  intros (Hw1 & Ho1 & Ht1) (Hw2 & Ho2 & Ht2). unfold extends.
  by rewrite Hw2, Hw1, Ho2, Ho1, Ht2, Ht1, app_assoc.
Qed.

Lemma extends_record_call p n s : extends s (record_call p n s) [(p, n)].
Proof. done. Qed.

Lemma wire_set_members st (x : option (ObserverObj V E St)) :
  wire <$> (set_members st <$> x) = wire <$> x.
Proof. by destruct x as [[|m]|]. Qed.

Lemma extends_set_members st p s :
  extends s (set_observers (alter (set_members st) p) s) [].
Proof.
  split; [|split; [done|]]; [|cbn [set_observers trace]; by rewrite app_nil_r].
  unfold wiring; cbn [set_observers observers].
  apply list_eq; intros i. rewrite !list_lookup_fmap.
  destruct (decide (p = i)) as [->|Hne].
  - by rewrite list_lookup_alter_eq, wire_set_members.
  - by rewrite list_lookup_alter_ne.
Qed.

Lemma wiring_plain s p : wiring s !! p = Some None <-> is_plain s p.
Proof.
  unfold wiring, is_plain. rewrite list_lookup_fmap.
  by destruct (observers s !! p) as [[|m]|].
Qed.

Lemma wiring_mapping s p d ms :
  wiring s !! p = Some (Some (d, ms)) ->
  exists m, observers s !! p = Some (Mapping m) /\ observer m = d /\ methods m = ms.
Proof.
  unfold wiring. rewrite list_lookup_fmap.
  destruct (observers s !! p) as [[|m]|]; try done.
  intros [= <- <-]. by exists m.
Qed.

Lemma forwarding_at_wiring s s' p :
  wiring s' = wiring s -> forwarding_at s p -> forwarding_at s' p.
Proof.
  intros Hw (m & Hm & Hf).
  assert (wiring s' !! p = Some (Some (observer m, methods m))) as Hp.
  { rewrite Hw. unfold wiring. by rewrite list_lookup_fmap, Hm. }
  apply wiring_mapping in Hp as (m' & Hm' & _ & Hms).
  exists m'. by rewrite Hms.
Qed.

Lemma receiver_plain w path d obs :
  receiver w path d obs -> w !! obs = Some None.
Proof.
  revert d. induction path as [|m path IH]; intros d.
  - by intros [_ Hp].
  - intros (_ & ms & d' & _ & Hr). by apply IH with d'.
Qed.

Lemma image_self n : image n [n].
Proof. destruct n; cbn; [|done..]. by repeat constructor. Qed.

Lemma images_nexts (ns l : list (Notification V E)) :
  Forall is_next ns -> images ns l -> Forall is_next l.
Proof.
  intros Hns Hi. induction Hi as [|n ns l ls Hn Hi IH]; [done|].
  apply Forall_cons in Hns as [Hn' Hns]. apply Forall_app. split; [|by apply IH].
  by destruct n.
Qed.

Lemma images_single n (l : list (Notification V E)) : images [n] l -> image n l.
Proof.
  inversion 1 as [|? ? l1 ls Hn Hi]; subst. inversion Hi; subst.
  by rewrite app_nil_r.
Qed.

Lemma images_app (ns1 ns2 l1 l2 : list (Notification V E)) :
  images ns1 l1 -> images ns2 l2 -> images (ns1 ++ ns2) (l1 ++ l2).
Proof.
  intros H1 H2. induction H1 as [|n ns l ls Hn Hi IH]; [done|].
  cbn [app]. rewrite <- app_assoc. by constructor.
Qed.

(** What a forwarding stage makes of one notification. *)
Lemma forwarding_method (m : MappingObserver V E St) n (l : list (Notification V E)) :
  forwarding (methods m) -> images (run_method m n).1 l -> image n l.
Proof.
  intros [Hnext [Herr Hcompl]] Hi. destruct n as [v|e|]; cbn [run_method method] in Hi.
  - cbn. eapply images_nexts; [apply Hnext|done].
  - rewrite Herr in Hi. by apply images_single.
  - rewrite Hcompl in Hi. by apply images_single.
Qed.

Section Receiver.

Variable obs : nat.

Lemma forM_delivers fuel path d (calls : list (Notification V E)) s :
  delivers (V:=V) (E:=E) (St:=St) obs fuel path d ->
  receiver (wiring s) path d obs ->
  exists s' t, forM (notify fuel d) calls s = Ok s' /\ extends s s' t /\
    (Forall (forwarding_at s) path -> images calls (calls_on obs t)).
Proof.
  intros Hd. revert s. induction calls as [|c calls IH]; intros s Hr.
  - exists s, []. split; [done|]. split; [apply extends_refl|]. intros _. constructor.
  - destruct (Hd s c Hr) as (s1 & t1 & Hn & He1 & Hi1).
    assert (wiring s1 = wiring s) as Hw by apply He1.
    destruct (IH s1) as (s2 & t2 & Hf & He2 & Hi2); [by rewrite Hw|].
    exists s2, (t1 ++ t2). cbn [forM]. rewrite Hn; cbn [bind].
    split; [done|]. split; [by eapply extends_trans|].
    intros Hfw. rewrite calls_on_app. constructor; [by apply Hi1|].
    apply Hi2. eapply Forall_impl; [exact Hfw|].
    intros p. by apply forwarding_at_wiring.
Qed.

Lemma notify_delivers path :
  forall fuel d, length path < fuel -> delivers (V:=V) (E:=E) (St:=St) obs fuel path d.
Proof.
  induction path as [|m path IH]; intros fuel d Hlt s n Hr.
  - destruct Hr as [-> Hp%wiring_plain]. destruct fuel as [|fuel]; [cbn in Hlt; lia|].
    exists (record_call obs n s), [(obs, n)].
    split; [by apply notify_plain|]. split; [done|].
    intros _. rewrite calls_on_cons_eq. apply image_self.
  - destruct Hr as (-> & ms & d' & Hm & Hr).
    pose proof (receiver_plain _ _ _ _ Hr) as Hobs.
    destruct (wiring_mapping _ _ _ _ Hm) as (mo & Hmo & Hd' & Hms).
    destruct fuel as [|fuel]; [cbn in Hlt; lia|]. cbn [length] in Hlt.
    cbn [notify]. rewrite Hmo. destruct (run_method mo n) as [calls st'] eqn:Hrun.
    rewrite Hd'.
    rewrite (forM_ext _ (notify fuel d')) by done.
    destruct (forM_delivers fuel path d' calls (record_call m n s)
                (IH fuel d' ltac:(lia)) Hr) as (s1 & t1 & Hf & He1 & Hi1).
    rewrite Hf; cbn [bind].
    eexists _, ([(m, n)] ++ t1 ++ []). split; [done|].
    split.
    { eapply extends_trans; [apply extends_record_call|].
      eapply extends_trans; [exact He1|apply extends_set_members]. }
    intros Hfw. apply Forall_cons in Hfw as [(mo' & Hmo' & Hfmo) Hfw].
    rewrite Hmo in Hmo'. injection Hmo' as <-.
    rewrite app_nil_r. cbn [app]. rewrite calls_on_cons_ne by congruence.
    apply (forwarding_method mo); [done|]. rewrite Hrun. by apply Hi1.
Qed.

End Receiver.

(** ** Subscribing through a chain of [map] stages *)

Lemma chain_nil_inv k s this root :
  chain k s this = Some (root, []) ->
  root = this /\
  exists o, observables s !! this = Some o /\ subscribeHandler o <> Some H_map.
Proof.
  destruct k as [|k]; cbn [chain];
    destruct (observables s !! this) as [o|] eqn:Ho; try done;
    destruct (subscribeHandler o) as [[]|] eqn:Hh; try done;
    try (intros [= <-]; split; [done|]; exists o; split; [done|congruence]).
  destruct (mappingObserver o); [|done]. destruct (mappingObservable o); [|done].
  by destruct (chain k s _) as [[? ?]|].
Qed.

Lemma chain_cons_inv k s this root mo ms :
  chain k s this = Some (root, mo :: ms) ->
  exists k' o up,
    k = S k' /\ observables s !! this = Some o /\ subscribeHandler o = Some H_map /\
    mappingObserver o = Some mo /\ mappingObservable o = Some up /\
    chain k' s up = Some (root, ms).
Proof.
  destruct k as [|k]; cbn [chain];
    destruct (observables s !! this) as [o|] eqn:Ho; try done;
    destruct (subscribeHandler o) as [[]|] eqn:Hh; try done.
  destruct (mappingObserver o) as [mo'|] eqn:Hmo; [|done].
  destruct (mappingObservable o) as [up|] eqn:Hup; [|done].
  destruct (chain k s up) as [[root' ms']|] eqn:Hc; [|done].
  intros [= -> -> ->]. by exists k, o, up.
Qed.

Lemma chain_observables k s s' this :
  observables s' = observables s -> chain k s' this = chain k s this.
Proof.
  intros Ho. revert this. induction k as [|k IH]; intros this; cbn [chain]; rewrite Ho.
  - done.
  - destruct (observables s !! this) as [o|]; [|done].
    destruct (subscribeHandler o) as [[]|]; try done.
    destruct (mappingObserver o); [|done]. destruct (mappingObservable o); [|done].
    by rewrite IH.
Qed.

(** The root of a chain is not a mapped Observable. *)
Lemma chain_root_unmapped k s this root ms :
  chain k s this = Some (root, ms) ->
  exists o, observables s !! root = Some o /\ subscribeHandler o <> Some H_map.
Proof.
  revert k this. induction ms as [|mo ms IH]; intros k this Hc.
  - by apply chain_nil_inv in Hc as [-> Ho].
  - apply chain_cons_inv in Hc as (k' & o & up & _ & _ & _ & _ & _ & Hc). by eapply IH.
Qed.

Lemma is_mapping_Some s p :
  is_mapping s p = true -> exists m, observers s !! p = Some (Mapping m).
Proof.
  unfold is_mapping. destruct (observers s !! p) as [[|m]|]; try done. by exists m.
Qed.

Lemma store_observer_spec mo d m s :
  observers s !! mo = Some (Mapping m) ->
  exists s1,
    store_observer mo d s = Ok s1 /\
    observables s1 = observables s /\ trace s1 = trace s /\
    wiring s1 !! mo = Some (Some (Some d, methods m)) /\
    (forall p, p <> mo -> wiring s1 !! p = wiring s !! p) /\
    (forall p, is_mapping s p = true -> is_mapping s1 p = true) /\
    (forall p, forwarding_at s p -> forwarding_at s1 p).
Proof.
  intros Hm. unfold store_observer. rewrite Hm. eexists; split; [done|].
  unfold wiring, is_mapping, forwarding_at; cbn [set_observers observables observers trace].
  repeat split.
  - by rewrite list_lookup_fmap, list_lookup_alter_eq, Hm.
  - intros p Hne. by rewrite !list_lookup_fmap, list_lookup_alter_ne.
  - intros p. destruct (decide (mo = p)) as [->|Hne].
    + by rewrite list_lookup_alter_eq, Hm.
    + by rewrite list_lookup_alter_ne.
  - intros p (m' & Hm' & Hf). destruct (decide (mo = p)) as [->|Hne].
    + rewrite list_lookup_alter_eq, Hm'. by eexists.
    + rewrite list_lookup_alter_ne by done. by exists m'.
Qed.

Lemma is_mapping_wiring s s' p :
  wiring s' = wiring s -> is_mapping s p = true -> is_mapping s' p = true.
Proof.
  intros Hw (m & Hm)%is_mapping_Some.
  assert (wiring s' !! p = Some (Some (observer m, methods m))) as Hp.
  { rewrite Hw. unfold wiring. by rewrite list_lookup_fmap, Hm. }
  apply wiring_mapping in Hp as (m' & Hm' & _). unfold is_mapping. by rewrite Hm'.
Qed.

Lemma receiver_agree w w' path d obs :
  (forall p, p = obs \/ p ∈ path -> w' !! p = w !! p) ->
  receiver w path d obs -> receiver w' path d obs.
Proof.
  revert d. induction path as [|m path IH]; intros d Hagree.
  - intros [-> Hp]. split; [done|]. rewrite Hagree; auto.
  - intros (-> & ms & d' & Hm & Hr). split; [done|]. exists ms, d'. split.
    + rewrite Hagree; [done|]. right. by left.
    + apply IH; [|done]. intros p [->|Hp]; apply Hagree; [by left|].
      right. by right.
Qed.

Lemma subscribe_through_chain obs ms :
  forall k s this d path root o T fuel,
    chain k s this = Some (root, ms) ->
    NoDup ms -> (forall m, m ∈ ms -> m ∉ path) ->
    Forall (fun m => is_mapping s m = true) ms ->
    receiver (wiring s) path d obs ->
    observables s !! root = Some o -> emission o = Some T ->
    2 * length ms + length path + 2 <= fuel ->
    exists s' t,
      subscribe fuel this d s = Ok (root, s') /\
      trace s' = trace s ++ t /\
      handler_at s' root None /\
      (Forall (forwarding_at s) ms -> Forall (forwarding_at s) path ->
       images T (calls_on obs t)) /\
      (forall that, that <> root -> observables s' !! that = observables s !! that) /\
      (forall p, is_mapping s p = true -> is_mapping s' p = true).
Proof.
  induction ms as [|mo ms IH];
    intros k s this d path root o T fuel Hc Hnd Hdisj Hmap Hr Ho HT Hfuel.
  - apply chain_nil_inv in Hc as [-> _].
    destruct fuel as [|fuel]; [lia|].
    rewrite (subscribe_emission _ _ _ _ _ _ Ho HT).
    destruct (subscribeHandler o) as [h|] eqn:Hh.
    + destruct (forM_delivers obs fuel path d T s) as (s1 & t & Hf & He & Hi);
        [apply notify_delivers; cbn [length] in Hfuel; lia|done|].
      rewrite Hf; cbn [bind]. destruct He as (Hw1 & Ho1 & Ht1).
      assert (observables s1 !! this = Some o) as Ho' by (by rewrite Ho1).
      destruct (completed_spec this o s1 Ho') as (s' & -> & Ht & Hobs' & Hh' & Hfr).
      exists s', t. split; [done|]. split; [congruence|]. split; [done|].
      split; [intros _ Hfw; by apply Hi|]. split.
      * intros that Hne. rewrite Hfr by done. by rewrite Ho1.
      * intros p. apply is_mapping_wiring. unfold wiring. by rewrite Hobs'.
    + exists s, []. split; [done|]. split; [by rewrite app_nil_r|]. split.
      { unfold handler_at. by rewrite Ho; cbn; rewrite Hh. }
      split; [|done].
      intros _ _. unfold emission in HT. rewrite Hh in HT.
      injection HT as <-. constructor.
  - apply chain_cons_inv in Hc as (k' & o' & up & -> & Ho' & Hh' & Hmo & Hup & Hc).
    apply NoDup_cons in Hnd as [Hnotin Hnd].
    apply Forall_cons in Hmap as [Hm Hmap].
    destruct (is_mapping_Some _ _ Hm) as (m & Hobj).
    destruct (store_observer_spec mo d m s Hobj)
      as (s1 & Hst & Hobs1 & Htr1 & Hw1 & Hwne & Hmap1 & Hfw1).
    destruct fuel as [|fuel]; [lia|].
    rewrite (subscribe_dispatch _ _ _ _ _ Ho'), Hh'.
    unfold subscribeHandler_map. rewrite (load_Some _ _ _ Ho'); cbn [bind].
    rewrite Hmo; cbn [deref bind]. rewrite Hst; cbn [bind]. rewrite Hup; cbn [bind].
    pose proof (receiver_plain _ _ _ _ Hr) as Hplain.
    assert (mo <> obs) as Hne.
    { intros ->. apply wiring_plain in Hplain. unfold is_plain in Hplain. congruence. }
    destruct (IH k' s1 up mo (mo :: path) root o T fuel)
      as (s' & t & Hs & Ht & Hh & Hi & Hfr & Hkind).
    + by rewrite (chain_observables _ _ _ _ Hobs1).
    + done.
    + intros p Hp [->|Hin]%elem_of_cons; [done|].
      eapply Hdisj; [|exact Hin]. by right.
    + eapply Forall_impl; [exact Hmap|]. intros p. apply Hmap1.
    + split; [done|]. exists (methods m), d. split; [done|].
      apply (receiver_agree (wiring s)); [|done].
      intros p [->|Hp]; apply Hwne; [done|].
      intros ->. eapply Hdisj; [|exact Hp]. by left.
    + by rewrite Hobs1.
    + done.
    + cbn [length] in *. lia.
    + exists s', t. split; [done|]. split; [congruence|]. split; [done|].
      split; [|split].
      * intros [Hmo' Hms]%Forall_cons Hpath. apply Hi.
        -- eapply Forall_impl; [exact Hms|]. intros p. apply Hfw1.
        -- constructor; [by apply Hfw1|].
           eapply Forall_impl; [exact Hpath|]. intros p. apply Hfw1.
      * intros that Hthat. rewrite Hfr by done. by rewrite Hobs1.
      * intros p Hp'. by apply Hkind, Hmap1.
Qed.

(** A subscription that returns leaves the Observable completed: the
    unmapped Observable at the bottom of the chain has no handler any more,
    and the chain is as before. *)
Lemma chain_after_completion k s s' this root ms :
  chain k s this = Some (root, ms) ->
  (forall that, that <> root -> observables s' !! that = observables s !! that) ->
  handler_at s' root None ->
  chain k s' this = Some (root, ms).
Proof.
  intros Hc Hfr Hh. revert k this Hc.
  induction ms as [|mo ms IH]; intros k this Hc.
  - apply chain_nil_inv in Hc as [-> _]. unfold handler_at in Hh.
    destruct (observables s' !! this) as [o'|] eqn:Ho'; [|done].
    injection Hh as Hh.
    destruct k; cbn [chain]; by rewrite Ho', Hh.
  - destruct (chain_root_unmapped _ _ _ _ _ Hc) as (o & Ho & Hunmapped).
    apply chain_cons_inv in Hc as (k' & o' & up & -> & Ho' & Hh' & Hmo & Hup & Hc).
    assert (this <> root) as Hne by congruence.
    cbn [chain]. rewrite (Hfr _ Hne), Ho', Hh', Hmo, Hup.
    by rewrite (IH _ _ Hc).
Qed.

Lemma subscribe_runs_to_completion k s this obs root ms o T fuel :
  chain k s this = Some (root, ms) ->
  NoDup ms -> Forall (fun m => is_mapping s m = true) ms ->
  is_plain s obs ->
  observables s !! root = Some o -> emission o = Some T ->
  2 * length ms + 2 <= fuel ->
  exists s',
    subscribe fuel this obs s = Ok (root, s') /\
    chain k s' this = Some (root, ms) /\
    Forall (fun m => is_mapping s' m = true) ms /\
    handler_at s' root None.
Proof.
  intros Hc Hnd Hmap Hp Ho HT Hfuel.
  destruct (subscribe_through_chain obs ms k s this obs [] root o T fuel)
    as (s' & t & Hs & _ & Hh & _ & Hfr & Hkind); try done.
  - intros m _ Hin. by apply elem_of_nil in Hin.
  - split; [done|]. by apply wiring_plain.
  - cbn [length]. lia.
  - exists s'. split; [done|]. split; [by eapply chain_after_completion|].
    split; [|done]. eapply Forall_impl; [exact Hmap|]. intros p. apply Hkind.
Qed.

Lemma nexts_fmap (l : list (Notification V E)) :
  Forall is_next l -> exists vs, l = Next <$> vs.
Proof.
  induction 1 as [|n l Hn _ [vs ->]]; [by exists []|].
  destruct n as [v| |]; try done. by exists (v :: vs).
Qed.

Lemma fmap_nexts (vs : list V) : Forall (@is_next V E) (Next <$> vs).
Proof. induction vs; by constructor. Qed.

Lemma images_app_inv (ns1 ns2 l : list (Notification V E)) :
  images (ns1 ++ ns2) l ->
  exists l1 l2, l = l1 ++ l2 /\ images ns1 l1 /\ images ns2 l2.
Proof.
  revert l. induction ns1 as [|n ns1 IH]; intros l.
  - intros Hi. exists [], l. repeat split; [constructor|done].
  - cbn [app]. inversion 1 as [|? ? l0 ls Hn Hi]; subst.
    destruct (IH _ Hi) as (l1 & l2 & -> & H1 & H2).
    exists (l0 ++ l1), l2. rewrite app_assoc. repeat split; [by constructor|done].
Qed.

Lemma emission_cases o T :
  emission o = Some T ->
  T = [] \/ (exists vs, T = (Next <$> vs) ++ [Complete]) \/
  (exists e, T = [Error e; Complete]).
Proof.
  unfold emission. destruct (subscribeHandler o) as [[]|].
  - destruct (values o) as [[|v vs]|]; try done. intros [= <-].
    right; left. by exists [v].
  - destruct (values o) as [vs|].
    + destruct (valuesCount o <=? length vs); [|done]. intros [= <-].
      right; left. by eexists.
    + destruct (valuesCount o); [|done]. intros [= <-]. right; left. by exists [].
  - destruct (err o) as [e|]; [|done]. intros [= <-]. right; right. by exists e.
  - done.
  - intros [= <-]. by left.
Qed.

Lemma images_protocol (T l : list (Notification V E)) :
  T = [] \/ (exists vs, T = (Next <$> vs) ++ [Complete]) \/
  (exists e, T = [Error e; Complete]) ->
  images T l ->
  l = [] \/ (exists vs, l = (Next <$> vs) ++ [Complete]) \/
  (exists e, l = [Error e; Complete]).
Proof.
  intros [->|[[vs ->]|[e ->]]] Hi.
  - left. by inversion Hi.
  - right; left. apply images_app_inv in Hi as (l1 & l2 & -> & H1 & H2).
    apply images_single in H2. cbn in H2. subst l2.
    apply images_nexts in H1; [|apply fmap_nexts].
    apply nexts_fmap in H1 as [vs' ->]. by exists vs'.
  - right; right. exists e.
    inversion Hi as [|? ? l1 ls Hn Hi']; subst.
    apply images_single in Hi'. cbn in Hn, Hi'. by subst.
Qed.

Lemma count_nexts f (vs : list V) (l : list (Notification V E)) :
  (forall v, f (Next v) = false) -> count f ((Next <$> vs) ++ l) = count f l.
Proof.
  intros Hf. unfold count. induction vs as [|v vs IH]; [done|].
  cbn [fmap list_fmap app List.filter]. by rewrite Hf.
Qed.

Lemma no_next_after_nexts (vs : list V) (l : list (Notification V E)) :
  no_next_after_terminal ((Next <$> vs) ++ l) = no_next_after_terminal l.
Proof. induction vs as [|v vs IH]; [done|]. exact IH. Qed.

Lemma protocol_consequences (l : list (Notification V E)) :
  l = [] \/ (exists vs, l = (Next <$> vs) ++ [Complete]) \/
  (exists e, l = [Error e; Complete]) ->
  count is_error l <= 1 /\ count is_complete l <= 1 /\
  no_next_after_terminal l = true.
Proof.
  intros [->|[[vs ->]|[e ->]]].
  - cbn. lia.
  - rewrite !count_nexts, no_next_after_nexts by done. cbn. lia.
  - cbn. lia.
Qed.

(** C7 (as the code has it).  Take an Observable built on an unmapped one
    (constructed by of, from or throwError, possibly completed) through any
    number of map stages whose mapping observers are distinct objects that
    obey the stage contract, and subscribe a plain observer.  The subscription
    returns, and what it delivers to the observer is either nothing (the
    Observable had completed), or zero or more [next] followed by one
    [complete], or one [error] followed by one [complete].  So there is at
    most one [error] and at most one [complete], [complete] comes last, and no
    [next] follows [error] or [complete]; but [error] is followed by
    [complete], which makes two terminal signals. *)
Theorem subscription_protocol k s this obs root ms o T fuel :
  chain k s this = Some (root, ms) ->
  NoDup ms -> Forall (forwarding_at s) ms ->
  is_plain s obs ->
  observables s !! root = Some o -> emission o = Some T ->
  2 * length ms + 2 <= fuel ->
  exists s' t,
    subscribe fuel this obs s = Ok (root, s') /\
    trace s' = trace s ++ t /\
    (calls_on obs t = [] \/
     (exists vs, calls_on obs t = (Next <$> vs) ++ [Complete]) \/
     (exists e, calls_on obs t = [Error e; Complete])) /\
    count is_error (calls_on obs t) <= 1 /\
    count is_complete (calls_on obs t) <= 1 /\
    no_next_after_terminal (calls_on obs t) = true.
Proof.
  intros Hc Hnd Hfw Hp Ho HT Hfuel.
  destruct (subscribe_through_chain obs ms k s this obs [] root o T fuel)
    as (s' & t & Hs & Ht & _ & Hi & _); try done.
  - intros m _ Hin. by apply elem_of_nil in Hin.
  - eapply Forall_impl; [exact Hfw|]. intros p (m & Hm & _).
    unfold is_mapping. by rewrite Hm.
  - split; [done|]. by apply wiring_plain.
  - cbn [length]. lia.
  - exists s', t. split; [done|]. split; [done|].
    assert (calls_on obs t = [] \/
            (exists vs, calls_on obs t = (Next <$> vs) ++ [Complete]) \/
            (exists e, calls_on obs t = [Error e; Complete])) as Hshape.
    { eapply images_protocol; [by eapply emission_cases|]. by apply Hi. }
    split; [done|]. by apply protocol_consequences.
Qed.

(** C8 (as the code has it).  Under the same conditions on the chain (the
    mapping observers need not obey the contract), [subscribe] returns the
    unmapped Observable at the bottom of the map chain as Subscription.  That
    is the receiver exactly when the receiver is not a mapped Observable; a
    mapped Observable hands out the Subscription of its source. *)
Theorem subscribe_returns_chain_root k s this obs root ms o T fuel :
  chain k s this = Some (root, ms) ->
  NoDup ms -> Forall (fun m => is_mapping s m = true) ms ->
  is_plain s obs ->
  observables s !! root = Some o -> emission o = Some T ->
  2 * length ms + 2 <= fuel ->
  (exists s', subscribe fuel this obs s = Ok (root, s')) /\
  (root = this <-> ms = []) /\
  (root = this <-> ~ handler_at s this (Some H_map)).
Proof.
  intros Hc Hnd Hmap Hp Ho HT Hfuel.
  assert (root = this <-> ms = []) as Hroot.
  { split.
    - intros ->. destruct ms as [|mo ms]; [done|].
      destruct (chain_root_unmapped _ _ _ _ _ Hc) as (o' & Ho' & Hh').
      apply chain_cons_inv in Hc as (k' & o'' & up & _ & Ho'' & Hh'' & _).
      congruence.
    - intros ->. by apply chain_nil_inv in Hc as [-> _]. }
  split; [|split; [done|]].
  - destruct (subscribe_through_chain obs ms k s this obs [] root o T fuel)
      as (s' & t & Hs & _); try done.
    + intros m _ Hin. by apply elem_of_nil in Hin.
    + split; [done|]. by apply wiring_plain.
    + cbn [length]. lia.
    + by exists s'.
  - rewrite Hroot. unfold handler_at. split.
    + intros ->. apply chain_nil_inv in Hc as (_ & o' & -> & Hh). cbn. congruence.
    + intros Hh. destruct ms as [|mo ms]; [done|]. destruct Hh.
      apply chain_cons_inv in Hc as (k' & o'' & up & _ & -> & Hh'' & _).
      cbn. by rewrite Hh''.
Qed.

Lemma subscribe_completed_chain k s this obs root ms fuel :
  chain k s this = Some (root, ms) ->
  Forall (fun m => is_mapping s m = true) ms ->
  handler_at s root None ->
  length ms < fuel ->
  exists s',
    subscribe fuel this obs s = Ok (root, s') /\
    trace s' = trace s /\
    observables s' = observables s /\
    is_Some (observables s' !! root).
Proof.
  revert k s this obs fuel.
  induction ms as [|mo ms IH]; intros k s this obs fuel Hc Hmap Hh Hfuel.
  - apply chain_nil_inv in Hc as [-> (o & Ho & _)].
    destruct fuel as [|fuel]; [cbn in Hfuel; lia|].
    rewrite (subscribe_dispatch _ _ _ _ _ Ho).
    unfold handler_at in Hh. rewrite Ho in Hh. injection Hh as ->.
    exists s. by rewrite Ho.
  - apply chain_cons_inv in Hc as (k' & o & up & -> & Ho & Hho & Hmo & Hup & Hc).
    apply Forall_cons in Hmap as [Hm Hmap].
    destruct (is_mapping_Some _ _ Hm) as (m & Hobj).
    destruct (store_observer_spec mo obs m s Hobj)
      as (s1 & Hst & Hobs1 & Htr1 & _ & _ & Hmap1 & _).
    destruct fuel as [|fuel]; [cbn in Hfuel; lia|].
    rewrite (subscribe_dispatch _ _ _ _ _ Ho), Hho.
    unfold subscribeHandler_map. rewrite (load_Some _ _ _ Ho); cbn [bind].
    rewrite Hmo; cbn [deref bind]. rewrite Hst; cbn [bind]. rewrite Hup; cbn [bind].
    destruct (IH k' s1 up mo fuel) as (s' & Hs & Ht & Hob & Hsome).
    + by rewrite (chain_observables _ _ _ _ Hobs1).
    + eapply Forall_impl; [exact Hmap|]. intros p. apply Hmap1.
    + unfold handler_at. by rewrite Hobs1.
    + cbn [length] in Hfuel. lia.
    + exists s'. repeat split; [done|congruence|congruence|done].
Qed.

(** C4.  Let the Observable's emission have run to completion: its handler
    is nullptr, or it is a mapped Observable (through any number of map
    stages) and the handler of the unmapped Observable it is built on is
    nullptr.  Then [subscribe] of any observer makes no call at all (so no
    [next], [error] or [complete] on the observer), changes no Observable (it
    stays completed), and returns a Subscription that designates an
    Observable of the store. *)
Theorem resubscribe_makes_no_call k s this obs root ms fuel :
  chain k s this = Some (root, ms) ->
  Forall (fun m => is_mapping s m = true) ms ->
  handler_at s root None ->
  length ms < fuel ->
  exists s',
    subscribe fuel this obs s = Ok (root, s') /\
    trace s' = trace s /\
    calls_on obs (trace s') = calls_on obs (trace s) /\
    observables s' = observables s /\
    handler_at s' root None /\
    is_Some (observables s' !! root).
Proof.
  intros Hc Hmap Hh Hfuel.
  destruct (subscribe_completed_chain k s this obs root ms fuel Hc Hmap Hh Hfuel)
    as (s' & Hs & Ht & Hobs & Hsome).
  assert (handler_at s' root None) as Hh' by (unfold handler_at; by rewrite Hobs).
  exists s'. rewrite Ht. by repeat split.
Qed.

(** The second of two subscriptions in a row makes no call, whoever the
    second observer is. *)
Lemma second_subscribe_makes_no_call k s this obs obs' root ms o T fuel :
  chain k s this = Some (root, ms) ->
  NoDup ms -> Forall (fun m => is_mapping s m = true) ms ->
  is_plain s obs ->
  observables s !! root = Some o -> emission o = Some T ->
  2 * length ms + 2 <= fuel ->
  exists s' s'',
    subscribe fuel this obs s = Ok (root, s') /\
    subscribe fuel this obs' s' = Ok (root, s'') /\
    trace s'' = trace s' /\
    observables s'' = observables s'.
Proof.
  intros Hc Hnd Hmap Hp Ho HT Hfuel.
  destruct (subscribe_runs_to_completion k s this obs root ms o T fuel)
    as (s' & Hs & Hc' & Hmap' & Hh'); try done.
  destruct (subscribe_completed_chain k s' this obs' root ms fuel)
    as (s'' & Hs' & Ht & Hobs & _); try done; [lia|].
  by exists s', s''.
Qed.

(** The factories construct Observables whose emission is defined. *)
Lemma emission_of (value : V) :
  emission (Observable_of value) = Some [@Next V E value; Complete].
Proof. reflexivity. Qed.

Lemma emission_from (vs : list V) :
  emission (Observable_from (Some vs) (length vs))
  = Some ((@Next V E <$> vs) ++ [Complete]).
Proof.
  unfold emission; cbn [Observable_from subscribeHandler values valuesCount].
  by rewrite Nat.leb_refl, firstn_all.
Qed.

Lemma emission_throwError (e : E) :
  emission (Observable_throwError e) = Some [@Error V E e; Complete].
Proof. reflexivity. Qed.

(** ** An error through one map stage *)

Lemma notify_mapping fuel p n m s :
  observers s !! p = Some (Mapping m) ->
  notify (S fuel) p n s =
    (s' <- forM (fun c s1 => d <- deref (observer m) ;; notify fuel d c s1)
                (run_method m n).1 (record_call p n s) ;;
     Ok (set_observers (alter (set_members (run_method m n).2) p) s')).
Proof. intros Hm. cbn [notify]. rewrite Hm. by destruct (run_method m n). Qed.

Lemma notify_forwarded fuel s mo obs ms n :
  wiring s !! mo = Some (Some (Some obs, ms)) -> is_plain s obs ->
  forwards_terminals ms -> is_terminal n = true ->
  exists s', notify (S (S fuel)) mo n s = Ok s' /\ extends s s' [(mo, n); (obs, n)].
Proof.
  intros (m & Hm & Hd & Hms)%wiring_mapping Hp [Herr Hcompl] Hn.
  assert ((run_method m n).1 = [n]) as Hrun.
  { destruct n as [v|e|]; [done|..]; cbn [run_method method]; by rewrite Hms. }
  rewrite (notify_mapping _ _ _ _ _ Hm), Hrun, Hd. cbn [forM deref bind].
  rewrite notify_plain by done. cbn [bind].
  eexists; split; [done|].
  eapply (extends_trans _ _ _ [(mo, n)] [(obs, n)]); [apply extends_record_call|].
  eapply (extends_trans _ _ _ [(obs, n)] []); [apply extends_record_call|].
  apply extends_set_members.
Qed.

(** C6.  Let [up] be as [throwError(e)] constructs it, [this] as
    [up->map(stage)] constructs it, where the mapping observer [stage]
    forwards [error] and [complete] unchanged, and let [obs] be a plain
    observer.  Then [this->subscribe(obs)] returns, and its calls are exactly:
    [stage.error(e)], [obs.error(e)], [stage.complete()], [obs.complete()].
    So [obs] receives [error(e)] then [complete()], and the stage's [next] is
    not called. *)
Theorem mapped_throwError_forwards_error s this up stage m obs (e : E) fuel :
  observables s !! up = Some (Observable_throwError e) ->
  observables s !! this = Some (Observable_map up stage) ->
  observers s !! stage = Some (Mapping m) ->
  forwards_terminals (methods m) ->
  is_plain s obs ->
  exists s' t,
    subscribe (4 + fuel) this obs s = Ok (up, s') /\
    trace s' = trace s ++ t /\
    t = [(stage, Error e); (obs, Error e); (stage, Complete); (obs, Complete)] /\
    calls_on obs t = [Error e; Complete] /\
    calls_on stage t = [Error e; Complete].
Proof.
  intros Hup Hthis Hm Hfw Hp.
  assert (stage <> obs) as Hne by (intros ->; unfold is_plain in Hp; congruence).
  destruct (store_observer_spec stage obs m s Hm)
    as (s1 & Hst & Hobs1 & Htr1 & Hw1 & Hwne & _ & _).
  assert (is_plain s1 obs) as Hp1.
  { apply wiring_plain. rewrite Hwne by done. by apply wiring_plain. }
  destruct (notify_forwarded fuel s1 stage obs (methods m) (Error e))
    as (s2 & Hn2 & Hw2 & Hobs2 & Htr2); [done..|].
  destruct (notify_forwarded fuel s2 stage obs (methods m) Complete)
    as (s3 & Hn3 & Hw3 & Hobs3 & Htr3); [by rewrite Hw2| |done..|].
  { apply wiring_plain. rewrite Hw2. by apply wiring_plain. }
  assert (observables s3 !! up = Some (Observable_throwError e)) as Hup3
    by (by rewrite Hobs3, Hobs2, Hobs1).
  destruct (completed_spec up _ s3 Hup3) as (s' & Hc & Htr' & _).
  exists s', [(stage, Error e); (obs, Error e); (stage, Complete); (obs, Complete)].
  split; [|split; [|split; [done|]]].
  - cbn [Nat.add]. rewrite (subscribe_dispatch _ _ _ _ _ Hthis).
    cbn [Observable_map subscribeHandler]. unfold subscribeHandler_map.
    rewrite (load_Some _ _ _ Hthis); cbn [bind Observable_map mappingObserver deref].
    rewrite Hst; cbn [bind Observable_map mappingObservable deref].
    assert (observables s1 !! up = Some (Observable_throwError e)) as Hup1
      by (by rewrite Hobs1).
    rewrite (subscribe_dispatch _ _ _ _ _ Hup1).
    cbn [Observable_throwError subscribeHandler]. unfold subscribeHandler_throwError.
    rewrite (load_Some _ _ _ Hup1); cbn [bind Observable_throwError err deref].
    rewrite Hn2; cbn [bind]. rewrite Hn3; cbn [bind]. done.
  - rewrite Htr', Htr3, Htr2, Htr1. by rewrite <- !app_assoc.
  - split.
    + rewrite calls_on_cons_ne, calls_on_cons_eq by done.
      by rewrite calls_on_cons_ne, calls_on_cons_eq by done.
    + rewrite calls_on_cons_eq, calls_on_cons_ne by done.
      by rewrite calls_on_cons_eq, calls_on_cons_ne by done.
Qed.

(** ** A sequence through one map stage *)

Lemma calls_on_same p (ns : list (Notification V E)) :
  calls_on p (pair p <$> ns) = ns.
Proof.
  induction ns as [|n ns IH]; [done|].
  cbn [fmap list_fmap]. rewrite calls_on_cons_eq. by f_equal.
Qed.

Lemma calls_on_other p q (ns : list (Notification V E)) :
  q <> p -> calls_on p (pair q <$> ns) = [].
Proof.
  intros Hne. induction ns as [|n ns IH]; [done|].
  cbn [fmap list_fmap]. by rewrite calls_on_cons_ne.
Qed.

Lemma forM_plain fuel obs (calls : list (Notification V E)) s :
  is_plain s obs ->
  forM (fun c s1 => d <- deref (Some obs) ;; notify (S fuel) d c s1) calls s
  = Ok (record_calls (pair obs <$> calls) s).
Proof.
  revert s. induction calls as [|c calls IH]; intros s Hp.
  - cbn. by rewrite record_calls_nil.
  - cbn [forM deref bind]. rewrite notify_plain by done. cbn [bind].
    rewrite IH by done. by rewrite record_call_calls, record_calls_app.
Qed.

Lemma notify_one_stage fuel s stage obs m n :
  observers s !! stage = Some (Mapping m) -> observer m = Some obs -> is_plain s obs ->
  notify (S (S fuel)) stage n s =
    Ok (set_observers (alter (set_members (run_method m n).2) stage)
          (record_calls ((stage, n) :: (pair obs <$> (run_method m n).1)) s)).
Proof.
  intros Hm Hd Hp. rewrite (notify_mapping _ _ _ _ _ Hm), Hd.
  rewrite forM_plain by done. cbn [bind].
  by rewrite record_call_calls, record_calls_app.
Qed.

Lemma forM_one_stage fuel stage obs (T : list (Notification V E)) :
  forall s m,
    observers s !! stage = Some (Mapping m) -> observer m = Some obs -> is_plain s obs ->
    exists s' t,
      forM (notify (S (S fuel)) stage) T s = Ok s' /\
      observables s' = observables s /\ trace s' = trace s ++ t /\
      calls_on obs t = (stage_run (methods m) (members m) T).1 /\
      calls_on stage t = T.
Proof.
  induction T as [|n T IH]; intros s m Hm Hd Hp.
  - exists s, []. by rewrite app_nil_r.
  - assert (stage <> obs) as Hne by (intros ->; unfold is_plain in Hp; congruence).
    cbn [forM]. rewrite (notify_one_stage fuel s stage obs m n) by done. cbn [bind].
    unfold run_method. cbn [stage_run].
    destruct (method (methods m) (members m) n) as [calls st1]. cbn [fst snd].
    set (s1 := set_observers _ _).
    destruct (IH s1 {| observer := observer m; members := st1; methods := methods m |})
      as (s' & t & Hf & Hobs & Htr & Hcalls & Hst); [| done |..].
    { subst s1. cbn [set_observers observers record_calls].
      by rewrite list_lookup_alter_eq, Hm. }
    { subst s1. unfold is_plain. cbn [set_observers observers record_calls].
      by rewrite list_lookup_alter_ne. }
    cbn [methods members] in Hcalls.
    destruct (stage_run (methods m) st1 T) as [rest st2]. cbn [fst] in *.
    exists s', ((stage, n) :: (pair obs <$> calls) ++ t). split; [done|].
    split; [by rewrite Hobs|]. split.
    { rewrite Htr. subst s1. cbn [set_observers record_calls trace].
      by rewrite <- app_assoc. }
    split.
    + rewrite calls_on_cons_ne, calls_on_app, calls_on_same by done. by rewrite Hcalls.
    + rewrite calls_on_cons_eq, calls_on_app, calls_on_other by done. by rewrite Hst.
Qed.

Lemma subscribe_one_stage s this up stage m obs o T fuel :
  observables s !! up = Some o -> emission o = Some T ->
  observables s !! this = Some (Observable_map up stage) ->
  observers s !! stage = Some (Mapping m) ->
  is_plain s obs ->
  exists s' t,
    subscribe (4 + fuel) this obs s = Ok (up, s') /\
    trace s' = trace s ++ t /\
    calls_on obs t = (stage_run (methods m) (members m) T).1 /\
    calls_on stage t = T.
Proof.
  intros Hup HT Hthis Hm Hp.
  assert (stage <> obs) as Hne by (intros ->; unfold is_plain in Hp; congruence).
  cbn [Nat.add]. rewrite (subscribe_dispatch _ _ _ _ _ Hthis).
  cbn [Observable_map subscribeHandler]. unfold subscribeHandler_map.
  rewrite (load_Some _ _ _ Hthis); cbn [bind Observable_map mappingObserver deref].
  unfold store_observer. rewrite Hm. cbn [bind Observable_map mappingObservable deref].
  set (s1 := set_observers _ s).
  assert (observables s1 !! up = Some o) as Hup1 by done.
  rewrite (subscribe_emission _ _ _ _ _ _ Hup1 HT).
  destruct (subscribeHandler o) as [h|] eqn:Hh.
  - destruct (forM_one_stage fuel stage obs T s1
                {| observer := Some obs; members := members m; methods := methods m |})
      as (s2 & t & Hf & Hobs & Htr & Hcalls & Hst); [| done |..].
    { subst s1. cbn [set_observers observers].
      by rewrite list_lookup_alter_eq, Hm. }
    { subst s1. unfold is_plain. cbn [set_observers observers].
      by rewrite list_lookup_alter_ne. }
    rewrite Hf; cbn [bind].
    assert (observables s2 !! up = Some o) as Hup2 by (by rewrite Hobs).
    destruct (completed_spec up o s2 Hup2) as (s' & -> & Htr' & _).
    exists s', t. repeat split; [|done..]. by rewrite Htr', Htr.
  - unfold emission in HT. rewrite Hh in HT. injection HT as <-.
    exists s1, []. repeat split; try done. subst s1; cbn. by rewrite app_nil_r.
Qed.

(** ** unsubscribe *)

Lemma clear_clear o : clear (clear o) = clear o.
Proof. reflexivity. Qed.

Lemma unsubscribe_spec s this o :
  observables s !! this = Some o ->
  unsubscribe this s = Ok (set_observables (alter clear this) s) /\
  observables (set_observables (alter clear this) s) !! this = Some (clear o).
Proof.
  intros Ho. unfold unsubscribe. rewrite (load_Some _ _ _ Ho); cbn [bind].
  split; [done|]. cbn [set_observables observables].
  by rewrite list_lookup_alter_eq, Ho.
Qed.

Lemma unsubscribe_twice s this o :
  observables s !! this = Some o ->
  unsubscribe this (set_observables (alter clear this) s)
  = Ok (set_observables (alter clear this) s).
Proof.
  intros Ho. destruct (unsubscribe_spec s this o Ho) as [_ Ho'].
  destruct (unsubscribe_spec _ this _ Ho') as [-> _].
  f_equal. unfold set_observables; cbn [observables observers trace]. f_equal.
  rewrite list_alter_alter_eq. by apply list_alter_ext.
Qed.

(** What a subscription can still deliver once the members are cleared. *)
Lemma subscribe_cleared fuel s this obs o sub s' :
  observables s !! this = Some o ->
  values o = None -> valuesCount o = 0 -> err o = None ->
  subscribeHandler o <> Some H_map ->
  is_plain s obs ->
  subscribe fuel this obs s = Ok (sub, s') ->
  trace s' = trace s \/ trace s' = trace s ++ [(obs, Complete)].
Proof.
  intros Ho Hv Hc He Hm Hp. destruct fuel as [|fuel]; [done|].
  rewrite (subscribe_dispatch _ _ _ _ _ Ho).
  destruct (subscribeHandler o) as [[]|] eqn:Hh.
  - unfold subscribeHandler_of. rewrite (load_Some _ _ _ Ho); cbn [bind].
    by rewrite Hv.
  - unfold subscribeHandler_from. rewrite (load_Some _ _ _ Ho); cbn [bind].
    rewrite Hc; cbn [from_loop bind].
    destruct fuel as [|fuel]; [done|]. rewrite notify_plain by done; cbn [bind].
    intros [= _ <-]. by right.
  - unfold subscribeHandler_throwError. rewrite (load_Some _ _ _ Ho); cbn [bind].
    by rewrite He.
  - done.
  - intros [= _ <-]. by left.
Qed.

(** C9.  [unsubscribe()] on an Observable in any state (never subscribed,
    subscribed, completed, already unsubscribed) does not fault; it sets
    [values] and [err] to nullptr and [valuesCount] to 0 and changes nothing
    else (the handler and the mapping pointers of this Observable, the other
    objects, the trace).  A second [unsubscribe()] leaves the store as the
    first one left it, and so does any number of calls in a row.  After it the stored value, sequence or error cannot be
    delivered again: whatever a later [subscribe] of a plain observer to this
    (unmapped) Observable returns, it has made no [next] and no [error]
    call. *)
Theorem unsubscribe_clears_and_is_idempotent s this o :
  observables s !! this = Some o ->
  exists s',
    unsubscribe this s = Ok s' /\
    observables s' !! this =
      Some {| subscribeHandler := subscribeHandler o;
              mappingObserver := mappingObserver o;
              mappingObservable := mappingObservable o;
              values := None; valuesCount := 0; err := None |} /\
    (forall that, that <> this -> observables s' !! that = observables s !! that) /\
    observers s' = observers s /\ trace s' = trace s /\
    unsubscribe this s' = Ok s' /\
    (forall k, unsubscribe_times (S k) this s = Ok s') /\
    (forall fuel obs sub s'',
       subscribeHandler o <> Some H_map -> is_plain s obs ->
       subscribe fuel this obs s' = Ok (sub, s'') ->
       trace s'' = trace s \/ trace s'' = trace s ++ [(obs, Complete)]).
Proof.
  intros Ho. destruct (unsubscribe_spec s this o Ho) as [Hu Ho'].
  exists (set_observables (alter clear this) s). repeat split; try done.
  - intros that Hne. cbn [set_observables observables].
    by rewrite list_lookup_alter_ne.
  - by apply unsubscribe_twice with o.
  - intros k. cbn [unsubscribe_times]. rewrite Hu; cbn [bind].
    induction k as [|k IH]; [done|].
    cbn [unsubscribe_times]. by rewrite (unsubscribe_twice s this o Ho).
  - intros fuel obs sub s'' Hm Hp Hs.
    by apply (subscribe_cleared fuel _ this obs (clear o) sub s'' Ho').
Qed.

(** C10.  [unsubscribe()] leaves the handler in place, so it does not
    complete the Observable.  When the handler is [subscribeHandler_of] or
    [subscribeHandler_throwError] (no subscribe has run to completion), a
    [subscribe] after the [unsubscribe()] still runs the handler, which
    dereferences the null [values] / [err]: the null dereference is reached,
    with any observer.  When the handler is [subscribeHandler_from], the
    [subscribe] calls [obs.complete()] once and [obs.next] not at all. *)
Theorem unsubscribe_does_not_complete s this o :
  observables s !! this = Some o ->
  exists s',
    unsubscribe this s = Ok s' /\
    handler_at s' this (subscribeHandler o) /\
    (subscribeHandler o = Some H_of \/ subscribeHandler o = Some H_throwError ->
     forall fuel obs, subscribe (S fuel) this obs s' = Fail NullDeref) /\
    (subscribeHandler o = Some H_from ->
     forall fuel obs, is_plain s obs ->
     exists s'',
       subscribe (S (S fuel)) this obs s' = Ok (this, s'') /\
       trace s'' = trace s ++ [(obs, Complete)]).
Proof.
  intros Ho. destruct (unsubscribe_spec s this o Ho) as [Hu Ho'].
  exists (set_observables (alter clear this) s). split; [done|]. split; [|split].
  - unfold handler_at. by rewrite Ho'.
  - intros Hh fuel obs. rewrite (subscribe_dispatch _ _ _ _ _ Ho').
    cbn [clear subscribeHandler].
    destruct Hh as [-> | ->].
    + unfold subscribeHandler_of. by rewrite (load_Some _ _ _ Ho').
    + unfold subscribeHandler_throwError. by rewrite (load_Some _ _ _ Ho').
  - intros Hh fuel obs Hp. rewrite (subscribe_dispatch _ _ _ _ _ Ho').
    cbn [clear subscribeHandler]. rewrite Hh.
    unfold subscribeHandler_from. rewrite (load_Some _ _ _ Ho'); cbn [bind].
    cbn [clear valuesCount from_loop bind].
    rewrite notify_plain by done; cbn [bind].
    eexists; split; [reflexivity|]. done.
Qed.

(** ** [from] with a count that is not the length of the array *)

Lemma forM_notify_plain fuel obs (T : list (Notification V E)) s :
  is_plain s obs ->
  forM (notify (S fuel) obs) T s = Ok (record_calls (pair obs <$> T) s).
Proof.
  intros Hp. rewrite <- (forM_plain fuel obs T s Hp). by apply forM_ext.
Qed.

Lemma subscribe_plain_emission fuel this obs o T s :
  observables s !! this = Some o -> emission o = Some T ->
  subscribeHandler o <> None -> is_plain s obs ->
  subscribe (S (S fuel)) this obs s
  = completed this (record_calls (pair obs <$> T) s).
Proof.
  intros Ho HT Hh Hp. rewrite (subscribe_emission _ _ _ _ _ _ Ho HT).
  destruct (subscribeHandler o); [|done].
  by rewrite forM_notify_plain.
Qed.

Lemma emission_from_count (vals : option (list V)) count :
  count <= length (default [] vals) ->
  emission (Observable_from vals count)
  = Some ((@Next V E <$> take count (default [] vals)) ++ [Complete]).
Proof.
  intros Hle. unfold emission; cbn [Observable_from subscribeHandler values valuesCount].
  destruct vals as [vs|].
  - change (default [] (Some vs)) with vs in *.
    apply Nat.leb_le in Hle. by rewrite Hle.
  - change (default [] (@None (list V))) with (@nil V) in *.
    cbn [length] in Hle. by replace count with 0 by lia.
Qed.

(** X1.  An Observable as [from(values, count)] constructs it, where [count]
    does not exceed the length of the array ([count] is 0 when [values] is
    nullptr), delivers the first [count] elements in order and then
    [complete()], and nothing of the rest of the array. *)
Theorem from_delivers_first_count s this obs (vals : option (list V)) count fuel :
  observables s !! this = Some (Observable_from vals count) ->
  count <= length (default [] vals) ->
  is_plain s obs ->
  exists s',
    subscribe (S (S fuel)) this obs s = Ok (this, s') /\
    trace s' = trace s ++ ((fun v => (obs, Next v)) <$> take count (default [] vals))
                       ++ [(obs, Complete)] /\
    handler_at s' this None.
Proof.
  intros Ho Hle Hp.
  rewrite (subscribe_plain_emission fuel this obs _ _ s Ho (emission_from_count _ _ Hle))
    by done.
  destruct (completed_spec this _
              (record_calls
                 (pair obs <$> (Next <$> take count (default [] vals)) ++ [Complete]) s) Ho)
    as (s' & Hs' & Ht & _ & Hh & _).
  exists s'. rewrite Hs', Ht. repeat split; [|done].
  cbn [record_calls trace]. by rewrite fmap_app, <- list_fmap_compose.
Qed.

Lemma from_loop_past_array fuel obs (vs : list V) i k s :
  is_plain s obs -> i <= length vs -> length vs < i + k ->
  from_loop (S fuel) (Some vs) obs i k s = Fail OutOfBounds.
Proof.
  intros Hp. revert i s Hp. induction k as [|k IH]; intros i s Hp Hi Hlt; [lia|].
  cbn [from_loop]. unfold index; cbn [deref bind].
  destruct (vs !! i) as [v|] eqn:Hv; [|done]. cbn [bind].
  apply lookup_lt_Some in Hv.
  rewrite notify_plain by done. cbn [bind]. apply IH; [done|lia..].
Qed.

(** X2.  When [count] exceeds the length of the array handed to [from], or
    the array is nullptr and [count] is not 0, nothing is checked at
    construction; the subscription faults: it reads past the end of the array,
    or dereferences nullptr. *)
Theorem from_bad_count_faults s this obs (vals : option (list V)) count fuel :
  observables s !! this = Some (Observable_from vals count) ->
  length (default [] vals) < count ->
  is_plain s obs ->
  subscribe (S (S fuel)) this obs s
  = Fail (if vals is Some _ then OutOfBounds else NullDeref).
Proof.
  intros Ho Hlt Hp. rewrite (subscribe_dispatch _ _ _ _ _ Ho).
  cbn [Observable_from subscribeHandler]. unfold subscribeHandler_from.
  rewrite (load_Some _ _ _ Ho); cbn [bind Observable_from values valuesCount].
  destruct vals as [vs|].
  - change (default [] (Some vs)) with vs in Hlt.
    rewrite from_loop_past_array; [done|done|lia|lia].
  - destruct count as [|count]; [cbn in Hlt; lia|]. done.
Qed.

(** ** Calls through a row of mapping observers, exactly *)

Lemma stage_run_app (ms : MappingMethods V E St) st (T1 T2 : list (Notification V E)) :
  stage_run ms st (T1 ++ T2) =
    let '(o1, st1) := stage_run ms st T1 in
    let '(o2, st2) := stage_run ms st1 T2 in
    (o1 ++ o2, st2).
Proof.
  revert st. induction T1 as [|n T1 IH]; intros st.
  - cbn. by destruct (stage_run ms st T2).
  - cbn [app stage_run]. destruct (method ms st n) as [calls st1]. rewrite IH.
    destruct (stage_run ms st1 T1) as [o1 st2].
    destruct (stage_run ms st2 T2) as [o2 st3]. by rewrite app_assoc.
Qed.

Lemma pipe_nil (stages : list (MappingMethods V E St * St)) :
  pipe stages [] = ([], stages).
Proof.
  induction stages as [|[ms st] rest IH]; [done|].
  cbn [pipe stage_run]. by rewrite IH.
Qed.

Lemma pipe_app (stages : list (MappingMethods V E St * St))
    (T1 T2 : list (Notification V E)) :
  pipe stages (T1 ++ T2) =
    let '(o1, r1) := pipe stages T1 in
    let '(o2, r2) := pipe r1 T2 in
    (o1 ++ o2, r2).
Proof.
  revert T1 T2. induction stages as [|[ms st] rest IH]; intros T1 T2; [done|].
  cbn [pipe]. rewrite stage_run_app.
  destruct (stage_run ms st T1) as [o1 st1].
  destruct (stage_run ms st1 T2) as [o2 st2] eqn:H2. rewrite IH.
  destruct (pipe rest o1) as [p1 r1]. cbn [pipe]. rewrite H2.
  by destruct (pipe r1 o2).
Qed.

Lemma pipe_step (ms : MappingMethods V E St) st rest n (T : list (Notification V E)) :
  pipe ((ms, st) :: rest) (n :: T) =
    let '(calls, st1) := method ms st n in
    let '(o1, r1) := pipe rest calls in
    let '(o2, r2) := pipe ((ms, st1) :: r1) T in
    (o1 ++ o2, r2).
Proof.
  cbn [pipe stage_run]. destruct (method ms st n) as [calls st1].
  destruct (stage_run ms st1 T) as [out st2] eqn:H2. rewrite pipe_app.
  destruct (pipe rest calls) as [o1 r1]. cbn [pipe]. rewrite ?H2.
  by destruct (pipe r1 out).
Qed.

Lemma stages_at_agree s s' path (stages : list (MappingMethods V E St * St)) :
  (forall p, p ∈ path -> observers s' !! p = observers s !! p) ->
  stages_at s path stages -> stages_at s' path stages.
Proof.
  intros Hagree Hst. induction Hst as [|p st path stages Hp Hst IH]; constructor.
  - unfold stage_of in *. rewrite Hagree; [done|]. by left.
  - apply IH. intros q Hq. apply Hagree. by right.
Qed.

Lemma extends_receiver s s' t path d obs :
  extends s s' t -> receiver (wiring s) path d obs -> receiver (wiring s') path d obs.
Proof. intros (-> & _). done. Qed.

Section Pipe.

Variable obs : nat.

Lemma pipes_nil fuel : pipes (V:=V) (E:=E) (St:=St) obs (S fuel) [] obs.
Proof.
  intros s stages T [_ Hp%wiring_plain] Hst. inversion Hst; subst.
  exists (record_calls (pair obs <$> T) s), (pair obs <$> T).
  split; [by apply forM_notify_plain|]. split; [done|].
  split; [by rewrite calls_on_same|]. split; [constructor|]. split; [done|].
  apply Forall_fmap, Forall_true. intros n. by left.
Qed.

Lemma pipes_cons fuel m path d' :
  pipes (V:=V) (E:=E) (St:=St) obs fuel path d' ->
  m ∉ path -> m <> obs ->
  forall T s ms st rest,
    observers s !! m
    = Some (Mapping {| observer := Some d'; members := st; methods := ms |}) ->
    receiver (wiring s) path d' obs -> stages_at s path rest ->
    exists s' t,
      forM (notify (S fuel) m) T s = Ok s' /\ extends s s' t /\
      calls_on obs t = (pipe ((ms, st) :: rest) T).1 /\
      stages_at s' (m :: path) (pipe ((ms, st) :: rest) T).2 /\
      (forall p, p ∉ m :: path -> observers s' !! p = observers s !! p) /\
      Forall (fun c => c.1 ∈ obs :: m :: path) t.
Proof.
  intros Hpipes Hm Hne. induction T as [|n T IH]; intros s ms st rest Hobj Hr Hst.
  - exists s, []. rewrite pipe_nil. split; [done|]. split; [apply extends_refl|].
    split; [done|]. split; [|done].
    constructor; [|done]. unfold stage_of. by rewrite Hobj.
  - cbn [forM]. rewrite (notify_mapping _ _ _ _ _ Hobj). unfold run_method.
    cbn [observer members methods deref]. rewrite pipe_step.
    destruct (method ms st n) as [calls st1]. cbn [fst snd].
    rewrite (forM_ext _ (notify fuel d')) by done.
    destruct (Hpipes (record_call m n s) rest calls Hr Hst)
      as (s1 & t1 & Hf & He1 & Hc1 & Hst1 & Hfr1 & Hon1).
    rewrite Hf; cbn [bind].
    destruct (pipe rest calls) as [o1 r1]. cbn [fst snd] in *.
    set (s2 := set_observers (alter (set_members st1) m) s1).
    assert (extends s1 s2 []) as He2 by apply extends_set_members.
    assert (observers s1 !! m
            = Some (Mapping {| observer := Some d'; members := st; methods := ms |}))
      as Hobj1 by (by rewrite Hfr1).
    destruct (IH s2 ms st1 r1) as (s' & t2 & Hf2 & He3 & Hc2 & Hst2 & Hfr2 & Hon2).
    { subst s2. cbn [set_observers observers].
      by rewrite list_lookup_alter_eq, Hobj1. }
    { by eapply extends_receiver, extends_receiver. }
    { eapply stages_at_agree; [|exact Hst1]. intros p Hp. subst s2.
      cbn [set_observers observers]. rewrite list_lookup_alter_ne; [done|].
      by intros ->. }
    destruct (pipe ((ms, st1) :: r1) T) as [o2 r2]. cbn [fst snd] in *.
    exists s', ((([(m, n)] ++ t1) ++ []) ++ t2). rewrite Hf2. split; [done|]. split.
    { eapply extends_trans; [|exact He3].
      eapply extends_trans; [|exact He2].
      eapply extends_trans; [apply extends_record_call|exact He1]. }
    rewrite app_nil_r. cbn [app]. split.
    { by rewrite calls_on_cons_ne, calls_on_app, Hc1, Hc2. }
    split; [done|]. split.
    { intros p Hp. rewrite Hfr2 by done. subst s2. cbn [set_observers observers].
      rewrite list_lookup_alter_ne by (intros ->; apply Hp; by left).
      apply Hfr1. intros Hin. apply Hp. by right. }
    constructor; [right; by left|]. apply Forall_app. split; [|done].
    eapply Forall_impl; [exact Hon1|]. intros c [->|Hc]%elem_of_cons; [by left|].
    right. by right.
Qed.

Lemma notify_pipes path :
  forall fuel d, NoDup path -> length path < fuel ->
    forall s, receiver (wiring s) path d obs ->
      pipes (V:=V) (E:=E) (St:=St) obs fuel path d.
Proof.
  induction path as [|m path IH]; intros fuel d Hnd Hlt s0 Hr0.
  - destruct Hr0 as [-> _]. destruct fuel as [|fuel]; [cbn in Hlt; lia|].
    apply pipes_nil.
  - apply NoDup_cons in Hnd as [Hm Hnd].
    destruct fuel as [|fuel]; [cbn in Hlt; lia|]. cbn [length] in Hlt.
    destruct Hr0 as (-> & ms0 & d' & Hw0 & Hr0').
    intros s stages T (_ & ms & d'' & Hw & Hr) Hst.
    inversion Hst as [|? [ms' st] ? rest Hstage Hrest]; subst.
    apply wiring_mapping in Hw as (mo & Hmo & Hd & Hms).
    unfold stage_of in Hstage. rewrite Hmo in Hstage. injection Hstage as <- <-.
    assert (m <> obs) as Hne.
    { intros ->. apply receiver_plain, wiring_plain in Hr.
      unfold is_plain in Hr. congruence. }
    destruct mo as [ptr st ms']. cbn in Hd. subst ptr.
    apply (pipes_cons fuel m path d''); try done.
    eapply IH; [done|lia|exact Hr].
Qed.

End Pipe.

(** ** Subscribing through a chain of [map] stages, exactly *)

Lemma store_observer_stages mo d s s1 :
  store_observer mo d s = Ok s1 ->
  observables s1 = observables s /\ trace s1 = trace s /\
  (forall p, stage_of s1 p = stage_of s p) /\
  (forall p, p <> mo -> observers s1 !! p = observers s !! p).
Proof.
  unfold store_observer. destruct (observers s !! mo) as [[|m]|] eqn:Hm; try done.
  intros [= <-]. repeat split.
  - intros p. unfold stage_of; cbn [set_observers observers].
    destruct (decide (mo = p)) as [->|Hne].
    + by rewrite list_lookup_alter_eq, Hm.
    + by rewrite list_lookup_alter_ne.
  - intros p Hne. cbn [set_observers observers]. by rewrite list_lookup_alter_ne.
Qed.

Lemma stages_at_stage_of s s' path (stages : list (MappingMethods V E St * St)) :
  (forall p, stage_of s' p = stage_of s p) ->
  stages_at s path stages -> stages_at s' path stages.
Proof.
  intros Hagree Hst. induction Hst; constructor; [by rewrite Hagree|done].
Qed.

Lemma stage_of_mapping s p st :
  stage_of s p = Some st -> is_mapping s p = true.
Proof.
  unfold stage_of, is_mapping. by destruct (observers s !! p) as [[|m]|].
Qed.

Lemma alter_handler_completed (l : list (Observable V E)) this o :
  l !! this = Some o -> subscribeHandler o = None ->
  alter (set_subscribeHandler None) this l = l.
Proof.
  intros Ho Hh. apply list_eq; intros i. destruct (decide (this = i)) as [->|Hne].
  - rewrite list_lookup_alter_eq, Ho. cbn. f_equal. destruct o; cbn in *. by subst.
  - by rewrite list_lookup_alter_ne.
Qed.

Lemma subscribe_pipes obs ms :
  forall k s this d path root o T fuel sms spath,
    chain k s this = Some (root, ms) ->
    NoDup ms -> NoDup path -> (forall m, m ∈ ms -> m ∉ path) ->
    stages_at s ms sms -> stages_at s path spath ->
    receiver (wiring s) path d obs ->
    observables s !! root = Some o -> emission o = Some T ->
    2 * length ms + length path + 2 <= fuel ->
    exists s' t,
      subscribe fuel this d s = Ok (root, s') /\
      trace s' = trace s ++ t /\
      calls_on obs t = (pipe (reverse sms ++ spath) T).1 /\
      stages_at s' (reverse ms ++ path) (pipe (reverse sms ++ spath) T).2 /\
      observables s' = alter (set_subscribeHandler None) root (observables s) /\
      (forall p, p ∉ ms -> p ∉ path -> observers s' !! p = observers s !! p) /\
      Forall (fun c => c.1 ∈ obs :: reverse ms ++ path) t.
Proof.
  induction ms as [|mo ms IH];
    intros k s this d path root o T fuel sms spath
           Hc Hnd Hndp Hdisj Hsms Hspath Hr Ho HT Hfuel.
  - apply chain_nil_inv in Hc as [-> _]. inversion Hsms; subst.
    cbn [reverse rev_append app].
    destruct fuel as [|fuel]; [lia|].
    rewrite (subscribe_emission _ _ _ _ _ _ Ho HT).
    destruct (subscribeHandler o) as [h|] eqn:Hh.
    + destruct (notify_pipes obs path fuel d Hndp ltac:(cbn [length] in Hfuel; lia)
                  s Hr s spath T Hr Hspath)
        as (s1 & t & Hf & (Hw & Hobs1 & Htr1) & Hcalls & Hst1 & Hfr1 & Hon1).
      rewrite Hf; cbn [bind]. unfold completed.
      assert (stages_at (set_observables (alter (set_subscribeHandler None) this) s1)
                path (pipe spath T).2) as Hst2
        by (eapply stages_at_agree; [|exact Hst1]; done).
      exists (set_observables (alter (set_subscribeHandler None) this) s1), t.
      cbn [set_observables trace observables observers].
      rewrite Hobs1. repeat split; try done. intros p _ Hp. by apply Hfr1.
    + exists s, []. unfold emission in HT. rewrite Hh in HT. injection HT as <-.
      rewrite pipe_nil, (alter_handler_completed _ _ _ Ho Hh), app_nil_r.
      by repeat split.
  - apply chain_cons_inv in Hc as (k' & o' & up & -> & Ho' & Hh' & Hmo & Hup & Hc).
    apply NoDup_cons in Hnd as [Hnotin Hnd].
    inversion Hsms as [|? smo ? sms' Hstage Hsms']; subst.
    pose proof (stage_of_mapping _ _ _ Hstage) as Hm.
    destruct (is_mapping_Some _ _ Hm) as (m & Hobj).
    destruct (store_observer_spec mo d m s Hobj)
      as (s1 & Hst & Hobs1 & Htr1 & Hw1 & Hwne & _ & _).
    destruct (store_observer_stages _ _ _ _ Hst) as (_ & _ & Hstages1 & Hfr1).
    destruct fuel as [|fuel]; [lia|].
    rewrite (subscribe_dispatch _ _ _ _ _ Ho'), Hh'.
    unfold subscribeHandler_map. rewrite (load_Some _ _ _ Ho'); cbn [bind].
    rewrite Hmo; cbn [deref bind]. rewrite Hst; cbn [bind]. rewrite Hup; cbn [bind].
    pose proof (receiver_plain _ _ _ _ Hr) as Hplain.
    assert (mo <> obs) as Hne.
    { intros ->. apply wiring_plain in Hplain. unfold is_plain in Hplain. congruence. }
    assert (mo ∉ path) as Hmopath by (apply Hdisj; by left).
    destruct (IH k' s1 up mo (mo :: path) root o T fuel sms' (smo :: spath))
      as (s' & t & Hs & Ht & Hcalls & Hst' & Hobs' & Hfr' & Hon').
    + by rewrite (chain_observables _ _ _ _ Hobs1).
    + done.
    + by apply NoDup_cons.
    + intros p Hp [->|Hin]%elem_of_cons; [done|].
      eapply Hdisj; [|exact Hin]. by right.
    + by eapply stages_at_stage_of.
    + constructor; [by rewrite Hstages1|]. by eapply stages_at_stage_of.
    + split; [done|]. exists (methods m), d. split; [done|].
      apply (receiver_agree (wiring s)); [|done].
      intros p [->|Hp]; apply Hwne; [done|]. by intros ->.
    + by rewrite Hobs1.
    + done.
    + cbn [length] in *. lia.
    + exists s', t. rewrite !reverse_cons, <- !app_assoc. cbn [app].
      rewrite Hobs', Hobs1, Ht, Htr1. repeat split; try done.
      intros p Hp Hpp. rewrite Hfr'.
      * apply Hfr1. intros ->. apply Hp. by left.
      * intros Hin. apply Hp. by right.
      * intros [->|Hin]%elem_of_cons; [apply Hp; by left|done].
Qed.

Lemma stages_exist s ms :
  Forall (fun m => is_mapping s m = true) ms -> exists stages, stages_at s ms stages.
Proof.
  induction 1 as [|m ms Hm _ [stages Hst]]; [exists []; constructor|].
  apply is_mapping_Some in Hm as (mo & Hmo).
  exists ((methods mo, members mo) :: stages). constructor; [|done].
  unfold stage_of. by rewrite Hmo.
Qed.

(** X3.  Map stages compose.  Through any number of map stages with distinct
    mapping observers, a subscription of a plain observer delivers to it what
    comes out of the row of stages, innermost first, fed with what the
    unmapped Observable at the bottom emits; each mapping observer is left
    with the private members this run gives it; and no observer other than
    the subscriber and the mapping observers of the chain is called. *)
Theorem map_chain_pipes k s this obs root ms stages o T fuel :
  chain k s this = Some (root, ms) ->
  NoDup ms -> stages_at s ms stages ->
  is_plain s obs ->
  observables s !! root = Some o -> emission o = Some T ->
  2 * length ms + 2 <= fuel ->
  exists s' t,
    subscribe fuel this obs s = Ok (root, s') /\
    trace s' = trace s ++ t /\
    calls_on obs t = (pipe (reverse stages) T).1 /\
    stages_at s' (reverse ms) (pipe (reverse stages) T).2 /\
    Forall (fun c => c.1 = obs \/ c.1 ∈ ms) t.
Proof.
  intros Hc Hnd Hst Hp Ho HT Hfuel.
  destruct (subscribe_pipes obs ms k s this obs [] root o T fuel stages [])
    as (s' & t & Hs & Ht & Hcalls & Hst' & _ & _ & Hon); try done.
  - constructor.
  - intros m _ Hin. by apply elem_of_nil in Hin.
  - constructor.
  - split; [done|]. by apply wiring_plain.
  - cbn [length]. lia.
  - rewrite !app_nil_r in *. exists s', t. repeat split; try done.
    eapply Forall_impl; [exact Hon|].
    intros c Hin. cbn beta in Hin. apply elem_of_cons in Hin as [Hin|Hin]; [by left|].
    right. by apply elem_of_reverse.
Qed.

(** X4.  What a subscription changes.  Of the Observables it changes one
    member of one object: the handler of the unmapped Observable at the bottom
    of the chain becomes nullptr; that Observable keeps [values],
    [valuesCount] and [err] (only [unsubscribe] clears them).  A mapped
    Observable is never marked completed: it stays as [map] constructed it.
    Observer objects outside the chain are not touched. *)
Theorem subscribe_clears_only_the_root_handler k s this obs root ms o T fuel :
  chain k s this = Some (root, ms) ->
  NoDup ms -> Forall (fun m => is_mapping s m = true) ms ->
  is_plain s obs ->
  observables s !! root = Some o -> emission o = Some T ->
  2 * length ms + 2 <= fuel ->
  exists s',
    subscribe fuel this obs s = Ok (root, s') /\
    observables s' !! root
    = Some {| subscribeHandler := None;
              mappingObserver := mappingObserver o;
              mappingObservable := mappingObservable o;
              values := values o; valuesCount := valuesCount o; err := err o |} /\
    (forall that, that <> root -> observables s' !! that = observables s !! that) /\
    (ms <> [] -> observables s' !! this = observables s !! this /\
                 handler_at s' this (Some H_map)) /\
    (forall p, p ∉ ms -> observers s' !! p = observers s !! p).
Proof.
  intros Hc Hnd Hmap Hp Ho HT Hfuel.
  destruct (stages_exist _ _ Hmap) as [stages Hst].
  destruct (subscribe_pipes obs ms k s this obs [] root o T fuel stages [])
    as (s' & t & Hs & _ & _ & _ & Hobs & Hfr & _); try done.
  - constructor.
  - intros m _ Hin. by apply elem_of_nil in Hin.
  - constructor.
  - split; [done|]. by apply wiring_plain.
  - cbn [length]. lia.
  - assert (forall that, that <> root -> observables s' !! that = observables s !! that)
      as Hothers.
    { intros that Hne. by rewrite Hobs, list_lookup_alter_ne. }
    exists s'. split; [done|]. split; [by rewrite Hobs, list_lookup_alter_eq, Ho|].
    split; [done|]. split.
    + intros Hms. destruct ms as [|mo ms']; [done|].
      destruct (chain_root_unmapped _ _ _ _ _ Hc) as (o' & Ho' & Hh').
      apply chain_cons_inv in Hc as (k' & o'' & up & _ & Ho'' & Hh'' & _).
      assert (this <> root) as Hne by congruence.
      split; [by apply Hothers|]. unfold handler_at.
      by rewrite (Hothers _ Hne), Ho''; cbn; rewrite Hh''.
    + intros p Hin. apply Hfr; [done|]. by intros ?%elem_of_nil.
Qed.

(** X5.  Completion is shared through the unmapped Observable.  Once a
    subscription to an Observable has returned, a subscription to any
    Observable built on the same unmapped Observable (that Observable itself,
    or another one mapped from it, through other stages) makes no call. *)
Theorem completion_is_shared k s this obs root ms o T fuel
    k2 this2 ms2 obs2 fuel2 :
  chain k s this = Some (root, ms) ->
  NoDup ms -> Forall (fun m => is_mapping s m = true) ms ->
  is_plain s obs ->
  observables s !! root = Some o -> emission o = Some T ->
  2 * length ms + 2 <= fuel ->
  chain k2 s this2 = Some (root, ms2) ->
  Forall (fun m => is_mapping s m = true) ms2 ->
  length ms2 < fuel2 ->
  exists s' s'',
    subscribe fuel this obs s = Ok (root, s') /\
    subscribe fuel2 this2 obs2 s' = Ok (root, s'') /\
    trace s'' = trace s'.
Proof.
  intros Hc Hnd Hmap Hp Ho HT Hfuel Hc2 Hmap2 Hfuel2.
  destruct (subscribe_through_chain obs ms k s this obs [] root o T fuel)
    as (s' & t & Hs & _ & Hh & _ & Hfr & Hkind); try done.
  - intros m _ Hin. by apply elem_of_nil in Hin.
  - split; [done|]. by apply wiring_plain.
  - cbn [length]. lia.
  - destruct (subscribe_completed_chain k2 s' this2 obs2 root ms2 fuel2)
      as (s'' & Hs2 & Ht2 & _); try done.
    + by eapply chain_after_completion.
    + eapply Forall_impl; [exact Hmap2|]. intros p. apply Hkind.
    + by exists s', s''.
Qed.

Lemma chain_grow k s s' this r more :
  observables s' = observables s ++ more ->
  chain k s this = Some r -> chain k s' this = Some r.
Proof.
  intros Hgrow. revert this r. induction k as [|k IH]; intros this r; cbn [chain];
    destruct (observables s !! this) as [o'|] eqn:Ho'; try done;
    rewrite Hgrow, (lookup_app_l_Some _ _ _ _ Ho');
    destruct (subscribeHandler o') as [[]|]; try done.
  destruct (mappingObserver o'); [|done]. destruct (mappingObservable o') as [up|]; [|done].
  destruct (chain k s up) as [r'|] eqn:Hup; [|done].
  by rewrite (IH _ _ Hup).
Qed.

Lemma chain_alloc k s this o r :
  chain k s this = Some r -> chain k (alloc o s).2 this = Some r.
Proof. by apply chain_grow with [o]. Qed.

(** X6.  [map] is lazy and stacks one stage.  It makes no call and changes no
    existing object; the new Observable is a fresh one whose chain is the
    chain of the receiver with the new mapping observer on top, down to the
    same unmapped Observable. *)
Theorem map_stacks_a_stage k s this mo root ms :
  chain k s this = Some (root, ms) ->
  observables s !! (map this mo s).1 = None /\
  chain (S k) (map this mo s).2 (map this mo s).1 = Some (root, mo :: ms) /\
  trace (map this mo s).2 = trace s /\
  observers (map this mo s).2 = observers s /\
  (forall that o, observables s !! that = Some o ->
                  observables (map this mo s).2 !! that = Some o).
Proof.
  intros Hc. split; [|split; [|split; [done|split; [done|]]]].
  - apply lookup_ge_None. unfold map, alloc; cbn. lia.
  - unfold map. cbn [chain]. rewrite alloc_lookup.
    cbn [Observable_map subscribeHandler mappingObserver mappingObservable].
    by rewrite (chain_alloc _ _ _ _ _ Hc).
  - intros that o Ho. unfold map, alloc; cbn [snd set_observables observables].
    by apply lookup_app_l_Some.
Qed.

(** X7.  [subscribe] followed by [unsubscribe()] on the Subscription it
    returned.  The [unsubscribe()] never faults, whatever the chain (the
    Subscription designates the unmapped Observable at the bottom), and it
    leaves that Observable with all its data members null: when it was
    constructed by of, from or throwError, it is as the constructor
    [Observable()] leaves an object. *)
Theorem subscribe_then_unsubscribe k s this obs root ms o T fuel :
  chain k s this = Some (root, ms) ->
  NoDup ms -> Forall (fun m => is_mapping s m = true) ms ->
  is_plain s obs ->
  observables s !! root = Some o -> emission o = Some T ->
  2 * length ms + 2 <= fuel ->
  exists sub s' s'',
    subscribe fuel this obs s = Ok (sub, s') /\
    unsubscribe sub s' = Ok s'' /\
    (mappingObserver o = None -> mappingObservable o = None ->
     observables s'' !! sub = Some Observable_new) /\
    trace s'' = trace s' /\ observers s'' = observers s'.
Proof.
  intros Hc Hnd Hmap Hp Ho HT Hfuel.
  destruct (stages_exist _ _ Hmap) as [stages Hst].
  destruct (subscribe_pipes obs ms k s this obs [] root o T fuel stages [])
    as (s' & t & Hs & _ & _ & _ & Hobs & _ & _); try done.
  - constructor.
  - intros m _ Hin. by apply elem_of_nil in Hin.
  - constructor.
  - split; [done|]. by apply wiring_plain.
  - cbn [length]. lia.
  - assert (observables s' !! root = Some (set_subscribeHandler None o)) as Ho'
      by (by rewrite Hobs, list_lookup_alter_eq, Ho).
    destruct (unsubscribe_spec s' root _ Ho') as [Hu Ho''].
    exists root, s', (set_observables (alter clear root) s').
    repeat split; try done.
    intros Hmo Hup. rewrite Ho''. unfold clear, Observable_new.
    cbn [set_subscribeHandler subscribeHandler mappingObserver mappingObservable].
    by rewrite Hmo, Hup.
Qed.

(** ** Subscriptions that fault or do not return *)

Lemma forM_last_fails {A S} (F : Fault) (Inv : S -> Prop) (f : A -> S -> Res S)
    (l : list A) (b : A) (x : S) :
  (forall a x1, Inv x1 -> f a x1 = Fail F \/ exists x2, f a x1 = Ok x2 /\ Inv x2) ->
  (forall x1, Inv x1 -> f b x1 = Fail F) ->
  Inv x -> forM f (l ++ [b]) x = Fail F.
Proof.
  intros Hstep Hlast. revert x. induction l as [|a l IH]; intros x Hx.
  - cbn. by rewrite Hlast.
  - cbn [app forM]. destruct (Hstep a x Hx) as [->|(x2 & -> & Hx2)]; [done|].
    cbn [bind]. by apply IH.
Qed.

Lemma emission_live o T :
  emission o = Some T -> subscribeHandler o <> None ->
  exists T' n, T = T' ++ [n] /\ is_terminal n = true.
Proof.
  intros HT Hh. destruct (emission_cases o T HT) as [->|[[vs ->]|[e ->]]].
  - exfalso. unfold emission in HT.
    destruct (subscribeHandler o) as [[]|]; [| | |done|done].
    + by destruct (values o) as [[|]|].
    + destruct (values o) as [vs|].
      * destruct (valuesCount o <=? length vs); [|done].
        injection HT as HT. by apply app_nil in HT as [_ ?].
      * by destruct (valuesCount o).
    + by destruct (err o).
  - by exists (Next <$> vs), Complete.
  - by exists [Error e], Complete.
Qed.

Lemma forwards_terminals_method (ms : MappingMethods V E St) st n :
  forwards_terminals ms -> is_terminal n = true -> (method ms st n).1 = [n].
Proof. intros [Herr Hcompl] Hn. destruct n; [done|apply Herr|apply Hcompl]. Qed.



Lemma self_loop_notify (ms : MappingMethods V E St) stage :
  forwards_terminals ms ->
  forall fuel n s, self_loop ms s stage ->
    (is_terminal n = true -> notify fuel stage n s = Fail OutOfFuel) /\
    (notify fuel stage n s = Fail OutOfFuel \/
     exists s', notify fuel stage n s = Ok s' /\ self_loop ms s' stage).
Proof.
  intros Hfw. induction fuel as [|fuel IH]; intros n s Hloop.
  { split; [done|by left]. }
  pose proof Hloop as (m & Hm & Hd & Hms).
  assert (self_loop ms (record_call stage n s) stage) as Hloop0 by done.
  assert (forall calls s0, self_loop ms s0 stage ->
            forM (fun c s1 => d <- deref (Some stage) ;; notify fuel d c s1) calls s0
            = Fail OutOfFuel \/
            exists s1,
              forM (fun c s1 => d <- deref (Some stage) ;; notify fuel d c s1) calls s0
              = Ok s1 /\ self_loop ms s1 stage) as Hcalls.
  { induction calls as [|c calls IHc]; intros s0 Hs0; [right; by exists s0|].
    cbn [forM deref bind].
    destruct (proj2 (IH c s0 Hs0)) as [->|(s1 & -> & Hs1)]; [by left|].
    cbn [bind]. by apply IHc. }
  rewrite (notify_mapping _ _ _ _ _ Hm), Hd. unfold run_method. rewrite Hms. split.
  - intros Hn. rewrite forwards_terminals_method by done.
    cbn [forM deref bind]. by rewrite (proj1 (IH n _ Hloop0) Hn).
  - destruct (Hcalls (method ms (members m) n).1 _ Hloop0) as [->|(s1 & -> & Hs1)];
      [by left|].
    right. cbn [bind]. eexists; split; [done|].
    destruct Hs1 as (m1 & Hm1 & Hd1 & Hms1).
    exists {| observer := observer m1; members := (method ms (members m) n).2;
              methods := methods m1 |}.
    cbn [set_observers observers observer methods].
    by rewrite list_lookup_alter_eq, Hm1.
Qed.

(** X9.  One mapping observer object used for two map stages of one chain
    ([up->map(stage)->map(stage)]) receives its own address as [observer], so
    its [error] and [complete] call themselves: on a live Observable the
    subscription recurses without end, whatever call depth is allowed and
    whoever subscribes. *)
Theorem stage_mapped_twice_never_returns s this mid up stage m o T obs fuel :
  observables s !! up = Some o -> emission o = Some T ->
  subscribeHandler o <> None ->
  observables s !! mid = Some (Observable_map up stage) ->
  observables s !! this = Some (Observable_map mid stage) ->
  observers s !! stage = Some (Mapping m) ->
  forwards_terminals (methods m) ->
  subscribe fuel this obs s = Fail OutOfFuel.
Proof.
  intros Hup HT Hh Hmid Hthis Hm Hfw.
  destruct fuel as [|fuel]; [done|].
  rewrite (subscribe_dispatch _ _ _ _ _ Hthis).
  cbn [Observable_map subscribeHandler]. unfold subscribeHandler_map.
  rewrite (load_Some _ _ _ Hthis); cbn [bind Observable_map mappingObserver deref].
  unfold store_observer at 1. rewrite Hm.
  cbn [bind Observable_map mappingObservable deref].
  set (s1 := set_observers _ s).
  assert (observers s1 !! stage
          = Some (Mapping {| observer := Some obs; members := members m;
                             methods := methods m |})) as Hm1.
  { subst s1. cbn [set_observers observers]. by rewrite list_lookup_alter_eq, Hm. }
  destruct fuel as [|fuel]; [done|].
  assert (observables s1 !! mid = Some (Observable_map up stage)) as Hmid1 by done.
  rewrite (subscribe_dispatch _ _ _ _ _ Hmid1).
  cbn [Observable_map subscribeHandler]. unfold subscribeHandler_map.
  rewrite (load_Some _ _ _ Hmid1); cbn [bind Observable_map mappingObserver deref].
  unfold store_observer. rewrite Hm1.
  cbn [bind Observable_map mappingObservable deref].
  set (s2 := set_observers _ s1).
  assert (self_loop (methods m) s2 stage) as Hloop.
  { eexists. subst s2. cbn [set_observers observers].
    rewrite list_lookup_alter_eq, Hm1. done. }
  destruct fuel as [|fuel]; [done|].
  assert (observables s2 !! up = Some o) as Hup2 by done.
  rewrite (subscribe_emission _ _ _ _ _ _ Hup2 HT).
  destruct (emission_live o T HT Hh) as (T' & n & -> & Hn).
  destruct (subscribeHandler o) as [h|]; [|done].
  rewrite (forM_last_fails OutOfFuel (fun s3 => self_loop (methods m) s3 stage));
    try done.
  - intros a s3 Hs3. by apply (self_loop_notify (methods m) stage Hfw fuel a s3).
  - intros s3 Hs3. by apply (self_loop_notify (methods m) stage Hfw fuel n s3).
Qed.

End Properties.

(** ** The 'map' test case of main *)

Lemma map_test_run :
  let obs := myIntObserver map_test in
  let mo := myMappingObserver map_test in
  outcome (map_test_subscribe 4)
  = Ok (intSeriesObservable map_test,
        [(mo, Next 1); (obs, Next 2); (mo, Next (-2)); (mo, Next 3); (obs, Next 6);
         (mo, Next (-4)); (mo, Next 5); (obs, Next 10); (mo, Next (-6));
         (mo, Next 7); (obs, Next 14); (mo, Complete); (obs, Complete)])%Z.
Proof. vm_compute. reflexivity. Qed.

Lemma delivered_outcome {V E St} p (r : Res (nat * Store V E St)) sub t :
  outcome r = Ok (sub, t) -> delivered p r = Ok (calls_on p t).
Proof. destruct r as [[sub' s']|]; [|done]. by intros [= _ <-]. Qed.

Lemma outcome_mono {V E St} fuel fuel' this obs (s : Store V E St) r :
  fuel <= fuel' ->
  outcome (subscribe fuel this obs s) = Ok r ->
  outcome (subscribe fuel' this obs s) = Ok r.
Proof.
  intros Hle. destruct (subscribe fuel this obs s) as [[sub s']|] eqn:Hs; [|done].
  by rewrite (subscribe_mono _ _ _ _ _ _ Hle Hs).
Qed.

(** The first [subscribe] of the 'map' test case, with any call depth from 4
    on. *)
Lemma map_test_calls fuel :
  delivered (myIntObserver map_test) (map_test_subscribe (4 + fuel))
  = Ok [Next 2; Next 6; Next 10; Next 14; Complete]%Z.
Proof.
  unfold map_test_subscribe.
  erewrite delivered_outcome; [|eapply outcome_mono; [|exact map_test_run]; lia].
  reflexivity.
Qed.

(** C5 (as the code has it).  Let [up] be as [from({1,-2,3,-4,5,-6,7}, 7)]
    constructs it, [this] as [up->map(stage)] constructs it, where [stage] is
    an [IntMapObserver] whose flag is [forward = true] (as its constructor
    leaves it), and [obs] a plain observer.  Then [this->subscribe(obs)] calls
    next(2), next(6), next(10), next(14) and then complete() on [obs]: the
    elements at indices 0, 2, 4 and 6, doubled; the elements at indices 1, 3
    and 5 are skipped.  The stage itself is called with all seven elements
    and complete(). *)
Theorem map_series_forwards_indices_0_2_4_6 {E} (s : Store Z E bool)
    (this up stage obs : nat) (ptr : option nat) (fuel : nat) :
  observables s !! up = Some (Observable_from (Some series) 7) ->
  observables s !! this = Some (Observable_map up stage) ->
  observers s !! stage
  = Some (Mapping {| observer := ptr; members := true;
                     methods := IntMapObserver_methods |}) ->
  is_plain s obs ->
  exists s' t,
    subscribe (4 + fuel) this obs s = Ok (up, s') /\
    trace s' = trace s ++ t /\
    calls_on obs t = [Next 2; Next 6; Next 10; Next 14; Complete]%Z /\
    calls_on stage t = (Next <$> series) ++ [Complete].
Proof.
  intros Hup Hthis Hm Hp.
  destruct (subscribe_one_stage s this up stage _ obs _
              ((Next <$> series) ++ [Complete]) fuel Hup eq_refl Hthis Hm Hp)
    as (s' & t & Hs & Ht & Hobs & Hst).
  exists s', t. by repeat split.
Qed.

(** C5 as stated fails: the calls are not next(-4), next(-8), next(14),
    complete(). *)
Lemma map_test_not_indices_1_3_5 :
  delivered (myIntObserver map_test) (map_test_subscribe 4)
  <> Ok [Next (-4); Next (-8); Next 14; Complete]%Z.
Proof.
  erewrite delivered_outcome; [|exact map_test_run]. vm_compute. discriminate.
Qed.

(** C8 as stated fails for a mapped Observable: the Subscription that
    [mappedSeriesObservable->subscribe] returns is [intSeriesObservable], the
    upstream, not [mappedSeriesObservable]. *)
Lemma map_test_subscription_is_upstream :
  subscription (map_test_subscribe 4) = Ok (intSeriesObservable map_test) /\
  subscription (map_test_subscribe 4) <> Ok (mappedSeriesObservable map_test).
Proof. split; vm_compute; [reflexivity|discriminate]. Qed.

(** C7 as stated fails: the 'throwError' test case delivers [error] and then
    [complete], two terminal signals in one subscription. *)
Lemma error_test_two_terminals :
  delivered (the_observer error_test) (error_test_subscribe 2)
  = Ok [Error "An error occured!"%string; Complete] /\
  terminals [@Error Z string "An error occured!"%string; Complete] = 2.
Proof. split; vm_compute; reflexivity. Qed.

(** ** [IntMapObserver] on any sequence *)

Lemma int_wrap_in_range (z : Z) :
  (- 2 ^ 31 <= z < 2 ^ 31)%Z -> int_wrap z = z.
Proof. intros Hz. unfold int_wrap. rewrite Z.mod_small; lia. Qed.

Lemma IntMapObserver_run {E} (forward : bool) (vs : list Z) :
  exists outs,
    stage_run (@IntMapObserver_methods E) forward ((Next <$> vs) ++ [Complete])
    = ((Next <$> outs) ++ [Complete], xorb forward (Nat.odd (length vs))) /\
    forall i, outs !! i
              = (fun v => int_wrap (2 * v)) <$> vs !! (2 * i + (if forward then 0 else 1)).
Proof.
  revert forward. induction vs as [|v vs IH]; intros forward.
  - exists []. split; [by destruct forward|]. intros i. by rewrite !lookup_nil.
  - destruct (IH (negb forward)) as (outs & Hrun & Hidx).
    cbn [fmap list_fmap app stage_run method IntMapObserver_methods m_next
         IntMapObserver_next length].
    rewrite Hrun. rewrite Nat.odd_succ, <- Nat.negb_odd.
    destruct forward; cbn [negb] in *.
    + exists (int_wrap (2 * v) :: outs). split.
      { cbn. by destruct (Nat.odd (length vs)). }
      intros [|i]; [done|]. cbn [lookup list_lookup]. rewrite Hidx.
      by replace (2 * S i + 0) with (S (2 * i + 1)) by lia.
    + exists outs. split.
      { cbn. by destruct (Nat.odd (length vs)). }
      intros i. rewrite Hidx.
      by replace (2 * i + 1) with (S (2 * i + 0)) by lia.
Qed.

(** X10.  Let [up] be as [from(vs, length vs)] constructs it, for any
    sequence [vs], and [this] as [up->map(stage)] constructs it, where [stage]
    is an [IntMapObserver] whose flag is [forward].  Subscribing a plain
    observer delivers next for every second element, doubled (in [int]
    arithmetic), then complete(): the i-th value delivered is twice the
    element at index 2i when the flag was true, at index 2i+1 when it was
    false.  The flag is left toggled once per element, so after a sequence of
    odd length a further use of the same stage object starts with the other
    elements. *)
Theorem IntMapObserver_forwards_every_second {E} (s : Store Z E bool)
    (this up stage obs : nat) (ptr : option nat) (forward : bool) (vs : list Z)
    (fuel : nat) :
  observables s !! up = Some (Observable_from (Some vs) (length vs)) ->
  observables s !! this = Some (Observable_map up stage) ->
  observers s !! stage
  = Some (Mapping {| observer := ptr; members := forward;
                     methods := IntMapObserver_methods |}) ->
  is_plain s obs ->
  exists s' t outs,
    subscribe (4 + fuel) this obs s = Ok (up, s') /\
    trace s' = trace s ++ t /\
    calls_on obs t = (Next <$> outs) ++ [Complete] /\
    (forall i, outs !! i
               = (fun v => int_wrap (2 * v))
                   <$> vs !! (2 * i + (if forward then 0 else 1))) /\
    stage_of s' stage
    = Some (IntMapObserver_methods, xorb forward (Nat.odd (length vs))).
Proof.
  intros Hup Hthis Hm Hp.
  destruct (IntMapObserver_run (E:=E) forward vs) as (outs & Hrun & Hidx).
  destruct (subscribe_pipes obs [stage] 1 s this obs [] up
              (Observable_from (Some vs) (length vs))
              ((Next <$> vs) ++ [Complete]) (4 + fuel)
              [(IntMapObserver_methods, forward)] [])
    as (s' & t & Hs & Ht & Hcalls & Hst & _);
    [cbn [chain]; rewrite Hthis; cbn; by rewrite Hup
    |apply NoDup_singleton
    |constructor
    |intros ? _ ?%elem_of_nil; done
    |repeat constructor; unfold stage_of; by rewrite Hm
    |constructor
    |split; [done|by apply wiring_plain]
    |exact Hup
    |apply emission_from
    |cbn; lia
    |].
  change (reverse [(@IntMapObserver_methods E, forward)] ++ [])
    with [(@IntMapObserver_methods E, forward)] in *.
  change (reverse [stage] ++ []) with [stage] in Hst.
  cbn [pipe] in Hcalls, Hst. rewrite Hrun in Hcalls, Hst. cbn [fst snd] in *.
  exists s', t, outs. repeat split; try done.
  by inversion Hst.
Qed.

(** ** The contract holds of [IntMapObserver] *)

Lemma IntMapObserver_forwarding {E} : forwarding (@IntMapObserver_methods E).
Proof.
  split; [|split]; try done.
  intros [] v; cbn; by repeat constructor.
Qed.

(** ** Instances on the test cases *)

Lemma of_subscribe_next_complete_witness :
  let t := of_test in
  (observables (the_store t) !! the_observable t = Some (Observable_of 1%Z) /\
   is_plain (the_store t) (the_observer t)) /\
  exists s',
    subscribe 2 (the_observable t) (the_observer t) (the_store t)
    = Ok (the_observable t, s') /\
    trace s' = trace (the_store t)
               ++ [(the_observer t, Next 1%Z); (the_observer t, Complete)] /\
    handler_at s' (the_observable t) None.
Proof.
  split; [split; reflexivity|].
  apply (of_subscribe_next_complete (the_store of_test) (the_observable of_test)
           (the_observer of_test) 1%Z 0); reflexivity.
Defined.

Lemma from_subscribe_each_then_complete_witness :
  let t := from_test in
  (observables (the_store t) !! the_observable t
   = Some (Observable_from (Some series) (length series)) /\
   is_plain (the_store t) (the_observer t)) /\
  exists s',
    subscribe 2 (the_observable t) (the_observer t) (the_store t)
    = Ok (the_observable t, s') /\
    trace s' = trace (the_store t)
               ++ ((fun v => (the_observer t, Next v)) <$> series)
               ++ [(the_observer t, Complete)] /\
    (series = [] -> trace s' = trace (the_store t) ++ [(the_observer t, Complete)]) /\
    handler_at s' (the_observable t) None.
Proof.
  split; [split; reflexivity|].
  apply (from_subscribe_each_then_complete (the_store from_test)
           (the_observable from_test) (the_observer from_test) series 0); reflexivity.
Defined.

Lemma throwError_subscribe_error_complete_witness :
  let t := error_test in
  (observables (the_store t) !! the_observable t
   = Some (Observable_throwError "An error occured!"%string) /\
   is_plain (the_store t) (the_observer t)) /\
  exists s',
    subscribe 2 (the_observable t) (the_observer t) (the_store t)
    = Ok (the_observable t, s') /\
    trace s' = trace (the_store t)
               ++ [(the_observer t, Error "An error occured!"%string);
                   (the_observer t, Complete)] /\
    handler_at s' (the_observable t) None.
Proof.
  split; [split; reflexivity|].
  apply (throwError_subscribe_error_complete (the_store error_test)
           (the_observable error_test) (the_observer error_test)
           "An error occured!"%string 0); reflexivity.
Defined.

Lemma map_series_forwards_indices_0_2_4_6_witness :
  let t := map_test in
  let s := map_store t in
  (observables s !! intSeriesObservable t = Some (Observable_from (Some series) 7) /\
   observables s !! mappedSeriesObservable t
   = Some (Observable_map (intSeriesObservable t) (myMappingObserver t)) /\
   observers s !! myMappingObserver t = Some IntMapObserver /\
   is_plain s (myIntObserver t)) /\
  exists s' tr,
    subscribe (4 + 0) (mappedSeriesObservable t) (myIntObserver t) s
    = Ok (intSeriesObservable t, s') /\
    trace s' = trace s ++ tr /\
    calls_on (myIntObserver t) tr = [Next 2; Next 6; Next 10; Next 14; Complete]%Z /\
    calls_on (myMappingObserver t) tr = (Next <$> series) ++ [Complete].
Proof.
  split; [repeat split; reflexivity|].
  apply (map_series_forwards_indices_0_2_4_6 (map_store map_test)
           (mappedSeriesObservable map_test) (intSeriesObservable map_test)
           (myMappingObserver map_test) (myIntObserver map_test) None 0);
    reflexivity.
Defined.

Lemma resubscribe_makes_no_call_witness :
  let s := map_store_completed in
  let t := map_test in
  (chain 1 s (mappedSeriesObservable t)
   = Some (intSeriesObservable t, [myMappingObserver t]) /\
   Forall (fun m => is_mapping s m = true) [myMappingObserver t] /\
   handler_at s (intSeriesObservable t) None /\
   length [myMappingObserver t] < 2) /\
  exists s',
    subscribe 2 (mappedSeriesObservable t) (myIntObserver t) s
    = Ok (intSeriesObservable t, s') /\
    trace s' = trace s /\
    calls_on (myIntObserver t) (trace s') = calls_on (myIntObserver t) (trace s) /\
    observables s' = observables s /\
    handler_at s' (intSeriesObservable t) None /\
    is_Some (observables s' !! intSeriesObservable t).
Proof.
  assert (Forall (fun m => is_mapping map_store_completed m = true)
            [myMappingObserver map_test]) as Hmap
    by (repeat constructor).
  split; [split; [reflexivity|split; [exact Hmap|split; [reflexivity|cbn; lia]]]|].
  apply (resubscribe_makes_no_call 1 map_store_completed
           (mappedSeriesObservable map_test) (myIntObserver map_test)
           (intSeriesObservable map_test) [myMappingObserver map_test] 2);
    [reflexivity|exact Hmap|reflexivity|cbn; lia].
Defined.

Lemma mapped_throwError_forwards_error_witness :
  let t := mapped_error_test in
  let e := "An error occured!"%string in
  (observables (map_store t) !! intSeriesObservable t = Some (Observable_throwError e) /\
   observables (map_store t) !! mappedSeriesObservable t
   = Some (Observable_map (intSeriesObservable t) (myMappingObserver t)) /\
   observers (map_store t) !! myMappingObserver t = Some IntMapObserver /\
   forwards_terminals (@IntMapObserver_methods string) /\
   is_plain (map_store t) (myIntObserver t)) /\
  exists s' tr,
    subscribe (4 + 0) (mappedSeriesObservable t) (myIntObserver t) (map_store t)
    = Ok (intSeriesObservable t, s') /\
    trace s' = trace (map_store t) ++ tr /\
    tr = [(myMappingObserver t, Error e); (myIntObserver t, Error e);
          (myMappingObserver t, Complete); (myIntObserver t, Complete)] /\
    calls_on (myIntObserver t) tr = [Error e; Complete] /\
    calls_on (myMappingObserver t) tr = [Error e; Complete].
Proof.
  pose proof (proj2 (@IntMapObserver_forwarding string)) as Hfw.
  split; [repeat split; try reflexivity; apply Hfw|].
  apply (mapped_throwError_forwards_error (map_store mapped_error_test)
           (mappedSeriesObservable mapped_error_test)
           (intSeriesObservable mapped_error_test)
           (myMappingObserver mapped_error_test)
           {| observer := None; members := true; methods := IntMapObserver_methods |}
           (myIntObserver mapped_error_test) "An error occured!"%string 0);
    [reflexivity|reflexivity|reflexivity|exact Hfw|reflexivity].
Defined.

Lemma subscription_protocol_witness :
  let t := map_test in
  let s := map_store t in
  (chain 1 s (mappedSeriesObservable t)
   = Some (intSeriesObservable t, [myMappingObserver t]) /\
   NoDup [myMappingObserver t] /\
   Forall (forwarding_at s) [myMappingObserver t] /\
   is_plain s (myIntObserver t) /\
   observables s !! intSeriesObservable t = Some (Observable_from (Some series) 7) /\
   emission (Observable_from (Some series) 7)
   = Some ((@Next Z string <$> series) ++ [Complete]) /\
   2 * length [myMappingObserver t] + 2 <= 4) /\
  exists s' tr,
    subscribe 4 (mappedSeriesObservable t) (myIntObserver t) s
    = Ok (intSeriesObservable t, s') /\
    trace s' = trace s ++ tr /\
    (calls_on (myIntObserver t) tr = [] \/
     (exists vs, calls_on (myIntObserver t) tr = (Next <$> vs) ++ [Complete]) \/
     (exists e, calls_on (myIntObserver t) tr = [Error e; Complete])) /\
    count is_error (calls_on (myIntObserver t) tr) <= 1 /\
    count is_complete (calls_on (myIntObserver t) tr) <= 1 /\
    no_next_after_terminal (calls_on (myIntObserver t) tr) = true.
Proof.
  assert (Forall (forwarding_at (map_store map_test)) [myMappingObserver map_test])
    as Hfw.
  { repeat constructor. eexists. split; [reflexivity|]. apply IntMapObserver_forwarding. }
  assert (NoDup [myMappingObserver map_test]) as Hnd
    by (repeat constructor; by intros ?%elem_of_nil).
  split.
  { split; [reflexivity|]. split; [exact Hnd|]. split; [exact Hfw|].
    split; [reflexivity|]. split; [reflexivity|]. split; [reflexivity|cbn; lia]. }
  apply (subscription_protocol 1 (map_store map_test)
           (mappedSeriesObservable map_test) (myIntObserver map_test)
           (intSeriesObservable map_test) [myMappingObserver map_test]
           (Observable_from (Some series) 7)
           ((Next <$> series) ++ [Complete]) 4);
    [reflexivity|exact Hnd|exact Hfw|reflexivity|reflexivity|reflexivity|cbn; lia].
Defined.

Lemma subscribe_returns_chain_root_witness :
  let t := map_test in
  let s := map_store t in
  (chain 1 s (mappedSeriesObservable t)
   = Some (intSeriesObservable t, [myMappingObserver t]) /\
   NoDup [myMappingObserver t] /\
   Forall (fun m => is_mapping s m = true) [myMappingObserver t] /\
   is_plain s (myIntObserver t) /\
   observables s !! intSeriesObservable t = Some (Observable_from (Some series) 7) /\
   emission (Observable_from (Some series) 7)
   = Some ((@Next Z string <$> series) ++ [Complete]) /\
   2 * length [myMappingObserver t] + 2 <= 4) /\
  (exists s', subscribe 4 (mappedSeriesObservable t) (myIntObserver t) s
              = Ok (intSeriesObservable t, s')) /\
  (intSeriesObservable t = mappedSeriesObservable t <-> [myMappingObserver t] = []) /\
  (intSeriesObservable t = mappedSeriesObservable t
   <-> ~ handler_at s (mappedSeriesObservable t) (Some H_map)).
Proof.
  assert (Forall (fun m => is_mapping (map_store map_test) m = true)
            [myMappingObserver map_test]) as Hmap
    by (repeat constructor).
  assert (NoDup [myMappingObserver map_test]) as Hnd
    by (repeat constructor; by intros ?%elem_of_nil).
  split.
  { split; [reflexivity|]. split; [exact Hnd|]. split; [exact Hmap|].
    split; [reflexivity|]. split; [reflexivity|]. split; [reflexivity|cbn; lia]. }
  apply (subscribe_returns_chain_root 1 (map_store map_test)
           (mappedSeriesObservable map_test) (myIntObserver map_test)
           (intSeriesObservable map_test) [myMappingObserver map_test]
           (Observable_from (Some series) 7)
           ((Next <$> series) ++ [Complete]) 4);
    [reflexivity|exact Hnd|exact Hmap|reflexivity|reflexivity|reflexivity|cbn; lia].
Defined.

Lemma unsubscribe_clears_and_is_idempotent_witness :
  let t := from_test in
  observables (the_store t) !! the_observable t
  = Some (Observable_from (Some series) 7) /\
  exists s',
    unsubscribe (the_observable t) (the_store t) = Ok s' /\
    observables s' !! the_observable t = Some (Observable_from None 0) /\
    unsubscribe (the_observable t) s' = Ok s'.
Proof.
  split; [reflexivity|].
  destruct (unsubscribe_clears_and_is_idempotent (the_store from_test)
              (the_observable from_test) (Observable_from (Some series) 7)
              ltac:(reflexivity))
    as (s' & Hu & Ho & _ & _ & _ & Hu' & _ & _).
  exists s'. split; [exact Hu|]. split; [exact Ho|exact Hu'].
Defined.

Lemma unsubscribe_does_not_complete_witness :
  let t := of_test in
  observables (the_store t) !! the_observable t = Some (Observable_of 1%Z) /\
  exists s',
    unsubscribe (the_observable t) (the_store t) = Ok s' /\
    handler_at s' (the_observable t) (Some H_of) /\
    subscribe 2 (the_observable t) (the_observer t) s' = Fail NullDeref.
Proof.
  split; [reflexivity|].
  destruct (unsubscribe_does_not_complete (the_store of_test)
              (the_observable of_test) (Observable_of 1%Z) ltac:(reflexivity))
    as (s' & Hu & Hh & Hnull & _).
  exists s'. split; [exact Hu|]. split; [exact Hh|].
  apply Hnull. left. reflexivity.
Defined.

(** ** Instances of the further properties *)

Lemma from_delivers_first_count_witness :
  let t := short_count_test in
  (observables (the_store t) !! the_observable t
   = Some (Observable_from (Some series) 3) /\
   3 <= length (default [] (Some series)) /\
   is_plain (the_store t) (the_observer t)) /\
  exists s',
    subscribe 2 (the_observable t) (the_observer t) (the_store t)
    = Ok (the_observable t, s') /\
    trace s' = trace (the_store t)
               ++ ((fun v => (the_observer t, Next v)) <$> [1; -2; 3]%Z)
               ++ [(the_observer t, Complete)] /\
    handler_at s' (the_observable t) None.
Proof.
  assert (3 <= length (default [] (Some series))) as Hle by (cbn; lia).
  split; [split; [reflexivity|split; [exact Hle|reflexivity]]|].
  apply (from_delivers_first_count (the_store short_count_test)
           (the_observable short_count_test) (the_observer short_count_test)
           (Some series) 3 0); [reflexivity|exact Hle|reflexivity].
Defined.

Lemma from_bad_count_faults_witness :
  let t := long_count_test in
  (observables (the_store t) !! the_observable t
   = Some (Observable_from (Some series) 9) /\
   length (default [] (Some series)) < 9 /\
   is_plain (the_store t) (the_observer t)) /\
  subscribe 2 (the_observable t) (the_observer t) (the_store t) = Fail OutOfBounds.
Proof.
  assert (length (default [] (Some series)) < 9) as Hlt by (cbn; lia).
  split; [split; [reflexivity|split; [exact Hlt|reflexivity]]|].
  apply (from_bad_count_faults (the_store long_count_test)
           (the_observable long_count_test) (the_observer long_count_test)
           (Some series) 9 0); [reflexivity|exact Hlt|reflexivity].
Defined.

Lemma map_chain_pipes_witness :
  let t := two_stage_test in
  let s := chain_store t in
  let stages := [(@IntMapObserver_methods string, true);
                 (@IntMapObserver_methods string, true)] in
  (chain 2 s (chain_top t) = Some (chain_source t, [outer_stage t; inner_stage t]) /\
   NoDup [outer_stage t; inner_stage t] /\
   stages_at s [outer_stage t; inner_stage t] stages /\
   is_plain s (chain_observer t) /\
   observables s !! chain_source t = Some (Observable_from (Some series) 7) /\
   emission (Observable_from (Some series) 7)
   = Some ((@Next Z string <$> series) ++ [Complete]) /\
   2 * length [outer_stage t; inner_stage t] + 2 <= 6) /\
  exists s' tr,
    subscribe 6 (chain_top t) (chain_observer t) s = Ok (chain_source t, s') /\
    trace s' = trace s ++ tr /\
    calls_on (chain_observer t) tr = [Next 4; Next 20; Complete]%Z.
Proof.
  assert (NoDup [outer_stage two_stage_test; inner_stage two_stage_test]) as Hnd.
  { apply NoDup_cons. split; [by intros ?%list_elem_of_singleton|apply NoDup_singleton]. }
  assert (stages_at (chain_store two_stage_test)
            [outer_stage two_stage_test; inner_stage two_stage_test]
            [(@IntMapObserver_methods string, true);
             (@IntMapObserver_methods string, true)]) as Hst
    by (repeat constructor).
  split.
  { split; [reflexivity|]. split; [exact Hnd|]. split; [exact Hst|].
    split; [reflexivity|]. split; [reflexivity|]. split; [reflexivity|cbn; lia]. }
  destruct (map_chain_pipes 2 (chain_store two_stage_test) (chain_top two_stage_test)
              (chain_observer two_stage_test) (chain_source two_stage_test)
              [outer_stage two_stage_test; inner_stage two_stage_test]
              [(IntMapObserver_methods, true); (IntMapObserver_methods, true)]
              (Observable_from (Some series) 7)
              ((Next <$> series) ++ [Complete]) 6)
    as (s' & tr & Hs & Ht & Hcalls & _);
    [reflexivity|exact Hnd|exact Hst|reflexivity|reflexivity|reflexivity|cbn; lia|].
  exists s', tr. split; [exact Hs|]. split; [exact Ht|exact Hcalls].
Defined.

Lemma subscribe_clears_only_the_root_handler_witness :
  let t := map_test in
  let s := map_store t in
  (chain 1 s (mappedSeriesObservable t)
   = Some (intSeriesObservable t, [myMappingObserver t]) /\
   NoDup [myMappingObserver t] /\
   Forall (fun m => is_mapping s m = true) [myMappingObserver t] /\
   is_plain s (myIntObserver t) /\
   observables s !! intSeriesObservable t = Some (Observable_from (Some series) 7) /\
   emission (Observable_from (Some series) 7)
   = Some ((@Next Z string <$> series) ++ [Complete]) /\
   2 * length [myMappingObserver t] + 2 <= 4) /\
  exists s',
    subscribe 4 (mappedSeriesObservable t) (myIntObserver t) s
    = Ok (intSeriesObservable t, s') /\
    observables s' !! intSeriesObservable t
    = Some {| subscribeHandler := None; mappingObserver := None;
              mappingObservable := None; values := Some series;
              valuesCount := 7; err := None |} /\
    handler_at s' (mappedSeriesObservable t) (Some H_map).
Proof.
  assert (Forall (fun m => is_mapping (map_store map_test) m = true)
            [myMappingObserver map_test]) as Hmap
    by (repeat constructor).
  assert (NoDup [myMappingObserver map_test]) as Hnd by apply NoDup_singleton.
  split.
  { split; [reflexivity|]. split; [exact Hnd|]. split; [exact Hmap|].
    split; [reflexivity|]. split; [reflexivity|]. split; [reflexivity|cbn; lia]. }
  destruct (subscribe_clears_only_the_root_handler 1 (map_store map_test)
              (mappedSeriesObservable map_test) (myIntObserver map_test)
              (intSeriesObservable map_test) [myMappingObserver map_test]
              (Observable_from (Some series) 7)
              ((Next <$> series) ++ [Complete]) 4)
    as (s' & Hs & Hroot & _ & Hthis & _);
    [reflexivity|exact Hnd|exact Hmap|reflexivity|reflexivity|reflexivity|cbn; lia|].
  exists s'. split; [exact Hs|]. split; [exact Hroot|].
  apply Hthis. discriminate.
Defined.

Lemma completion_is_shared_witness :
  let t := map_test in
  let s := map_store t in
  (chain 1 s (mappedSeriesObservable t)
   = Some (intSeriesObservable t, [myMappingObserver t]) /\
   NoDup [myMappingObserver t] /\
   Forall (fun m => is_mapping s m = true) [myMappingObserver t] /\
   is_plain s (myIntObserver t) /\
   observables s !! intSeriesObservable t = Some (Observable_from (Some series) 7) /\
   emission (Observable_from (Some series) 7)
   = Some ((@Next Z string <$> series) ++ [Complete]) /\
   2 * length [myMappingObserver t] + 2 <= 4 /\
   chain 0 s (intSeriesObservable t) = Some (intSeriesObservable t, []) /\
   Forall (fun m => is_mapping s m = true) [] /\
   length (@nil nat) < 1) /\
  exists s' s'',
    subscribe 4 (mappedSeriesObservable t) (myIntObserver t) s
    = Ok (intSeriesObservable t, s') /\
    subscribe 1 (intSeriesObservable t) (myIntObserver t) s'
    = Ok (intSeriesObservable t, s'') /\
    trace s'' = trace s'.
Proof.
  assert (Forall (fun m => is_mapping (map_store map_test) m = true)
            [myMappingObserver map_test]) as Hmap
    by (repeat constructor).
  assert (NoDup [myMappingObserver map_test]) as Hnd by apply NoDup_singleton.
  split.
  { split; [reflexivity|]. split; [exact Hnd|]. split; [exact Hmap|].
    split; [reflexivity|]. split; [reflexivity|]. split; [reflexivity|].
    split; [cbn; lia|]. split; [reflexivity|]. split; [constructor|cbn; lia]. }
  apply (completion_is_shared 1 (map_store map_test)
           (mappedSeriesObservable map_test) (myIntObserver map_test)
           (intSeriesObservable map_test) [myMappingObserver map_test]
           (Observable_from (Some series) 7)
           ((Next <$> series) ++ [Complete]) 4
           0 (intSeriesObservable map_test) [] (myIntObserver map_test) 1);
    [reflexivity|exact Hnd|exact Hmap|reflexivity|reflexivity|reflexivity|cbn; lia
    |reflexivity|constructor|cbn; lia].
Defined.

Lemma map_stacks_a_stage_witness :
  let t := map_test in
  let s := map_store t in
  let r := map (mappedSeriesObservable t) (myIntObserver t) s in
  chain 1 s (mappedSeriesObservable t)
  = Some (intSeriesObservable t, [myMappingObserver t]) /\
  chain 2 r.2 r.1
  = Some (intSeriesObservable t, [myIntObserver t; myMappingObserver t]) /\
  trace r.2 = trace s.
Proof.
  split; [reflexivity|].
  destruct (map_stacks_a_stage 1 (map_store map_test)
              (mappedSeriesObservable map_test) (myIntObserver map_test)
              (intSeriesObservable map_test) [myMappingObserver map_test]
              ltac:(reflexivity))
    as (_ & Hchain & Htrace & _).
  split; [exact Hchain|exact Htrace].
Defined.

Lemma subscribe_then_unsubscribe_witness :
  let t := from_test in
  let s := the_store t in
  (chain 0 s (the_observable t) = Some (the_observable t, []) /\
   is_plain s (the_observer t) /\
   observables s !! the_observable t = Some (Observable_from (Some series) 7) /\
   emission (Observable_from (Some series) 7)
   = Some ((@Next Z string <$> series) ++ [Complete])) /\
  exists sub s' s'',
    subscribe 2 (the_observable t) (the_observer t) s = Ok (sub, s') /\
    unsubscribe sub s' = Ok s'' /\
    observables s'' !! sub = Some Observable_new.
Proof.
  split; [repeat split; reflexivity|].
  destruct (subscribe_then_unsubscribe 0 (the_store from_test)
              (the_observable from_test) (the_observer from_test)
              (the_observable from_test) []
              (Observable_from (Some series) 7)
              ((Next <$> series) ++ [Complete]) 2)
    as (sub & s' & s'' & Hs & Hu & Hnew & _);
    [reflexivity|constructor|constructor|reflexivity|reflexivity|reflexivity|cbn; lia|].
  exists sub, s', s''. split; [exact Hs|]. split; [exact Hu|].
  apply Hnew; reflexivity.
Defined.


Lemma stage_mapped_twice_never_returns_witness :
  let t := same_stage_test in
  let s := chain_store t in
  (observables s !! chain_source t = Some (Observable_from (Some series) 7) /\
   observables s !! chain_mid t
   = Some (Observable_map (chain_source t) (inner_stage t)) /\
   observables s !! chain_top t
   = Some (Observable_map (chain_mid t) (inner_stage t)) /\
   observers s !! inner_stage t = Some IntMapObserver /\
   forwards_terminals (@IntMapObserver_methods string)) /\
  subscribe 1000 (chain_top t) (chain_observer t) s = Fail OutOfFuel.
Proof.
  pose proof (proj2 (@IntMapObserver_forwarding string)) as Hfw.
  split; [repeat split; try reflexivity; apply Hfw|].
  apply (stage_mapped_twice_never_returns (chain_store same_stage_test)
           (chain_top same_stage_test) (chain_mid same_stage_test)
           (chain_source same_stage_test) (inner_stage same_stage_test)
           {| observer := None; members := true; methods := IntMapObserver_methods |}
           (Observable_from (Some series) 7)
           ((Next <$> series) ++ [Complete]) (chain_observer same_stage_test) 1000);
    [reflexivity|reflexivity|discriminate|reflexivity|reflexivity|reflexivity|exact Hfw].
Defined.

Lemma IntMapObserver_forwards_every_second_witness :
  let t := map_test in
  let s := map_store t in
  (observables s !! intSeriesObservable t
   = Some (Observable_from (Some series) (length series)) /\
   observables s !! mappedSeriesObservable t
   = Some (Observable_map (intSeriesObservable t) (myMappingObserver t)) /\
   observers s !! myMappingObserver t = Some IntMapObserver /\
   is_plain s (myIntObserver t)) /\
  exists s' tr outs,
    subscribe (4 + 0) (mappedSeriesObservable t) (myIntObserver t) s
    = Ok (intSeriesObservable t, s') /\
    trace s' = trace s ++ tr /\
    calls_on (myIntObserver t) tr = (Next <$> outs) ++ [Complete] /\
    stage_of s' (myMappingObserver t) = Some (IntMapObserver_methods, false).
Proof.
  split; [repeat split; reflexivity|].
  destruct (IntMapObserver_forwards_every_second (map_store map_test)
              (mappedSeriesObservable map_test) (intSeriesObservable map_test)
              (myMappingObserver map_test) (myIntObserver map_test) None true series 0)
    as (s' & tr & outs & Hs & Ht & Hcalls & _ & Hflag);
    [reflexivity..|].
  exists s', tr, outs. split; [exact Hs|]. split; [exact Ht|].
  split; [exact Hcalls|exact Hflag].
Defined.

End Rx.
